(** * Lifelog transfer over Data Request SP + Convoy

    A shallow embedding of [gshock_api/iolib/lifelog_io.py] (class
    [LifelogIO]) and the properties of its reassembly state machine.

    Python values are embedded as follows.
    - [bytes] and [bytearray] are lists of [Byte.byte]; indexing yields the
      unsigned value of the byte as an unbounded integer ([Z]).
    - Python [int] is [Z]; the frame length is assembled with [Z.lor] and
      [Z.shiftl] exactly as the source does.
    - The class attributes of [LifelogIO] form one record that every handler
      receives and returns.
    - Operations that raise in Python (indexing, [struct.unpack_from]) return
      in [Exc]; the handlers are proved never to raise.
    - Calls on the transport are recorded as a list of [Effect]s.
    - The coroutine [request] is its synchronous prefix together with its
      resumption on the outcome of the awaited write. *)

From Stdlib Require Import ZArith Bool String Lia QArith List.
From Stdlib Require Import Strings.Byte.
Import ListNotations.
Local Open Scope Z_scope.

(** ** Python exceptions and the error monad *)

Inductive PyError : Type :=
| IndexError
| StructError.

Inductive Exc (A : Type) : Type :=
| Ok (a : A)
| Raise (e : PyError).

Arguments Ok {A} a.
Arguments Raise {A} e.

Definition bind {A B : Type} (m : Exc A) (k : A -> Exc B) : Exc B :=
  match m with
  | Ok a => k a
  | Raise e => Raise e
  end.

Notation "x <- m ;; k" := (bind m (fun x => k))
  (at level 61, m at next level, right associativity).

(** ** Bytes *)

Definition bytes : Type := list byte.

(** [len(x)] *)
Definition len {A : Type} (l : list A) : Z := Z.of_nat (List.length l).

(** The integer a byte denotes, in [0, 255]. *)
Definition int_of_byte (b : byte) : Z := Z.of_N (Byte.to_N b).

(** [data[i]] on [bytes]: raises [IndexError] out of range. *)
Definition getitem (data : bytes) (i : nat) : Exc Z :=
  match nth_error data i with
  | Some b => Ok (int_of_byte b)
  | None => Raise IndexError
  end.

(** [struct.unpack_from("<I", buffer, offset)[0]] for a non-negative offset:
    four bytes, least significant first; raises [struct.error] when fewer
    than four bytes are available at [offset]. *)
Definition unpack_from_u32_le (buffer : bytes) (offset : Z) : Exc Z :=
  match skipn (Z.to_nat offset) buffer with
  | b0 :: b1 :: b2 :: b3 :: _ =>
      Ok (Z.lor (Z.lor (Z.lor (int_of_byte b0)
                              (Z.shiftl (int_of_byte b1) 8))
                       (Z.shiftl (int_of_byte b2) 16))
                (Z.shiftl (int_of_byte b3) 24))
  | _ => Raise StructError
  end.

(** [b[lo:hi]] for [0 <= lo <= hi]. *)
Definition slice (b : bytes) (lo hi : nat) : bytes :=
  firstn (hi - lo) (skipn lo b).

(** The unsigned integer a byte string denotes, least significant byte
    first: the sum of [b_i * 256^i]. *)
Fixpoint uint_le (b : bytes) : Z :=
  match b with
  | [] => 0
  | x :: rest => int_of_byte x + 256 * uint_le rest
  end.

(** ** The Result Channel *)

Module CancelableResult.

(** Modelled from the spec: [gshock_api/cancelable_result.py] is not among
    the sources.  A one-shot, timeout-bounded delivery slot: [delivered]
    lists the values handed to the waiting caller. *)
Record t : Type := make { timeout : Q; delivered : list Z }.

(** Modelled from the spec: the constructor [CancelableResult(timeout=...)]
    arms the channel with the timeout; nothing is delivered yet. *)
Definition create (timeout : Q) : t := make timeout [].

(** Modelled from the spec: [set_result(value)] "delivers exactly once; a
    second call is a no-op ..., never a second delivery to the caller". *)
Definition set_result (value : Z) (cr : t) : t :=
  match delivered cr with
  | [] => make (timeout cr) [value]
  | _ :: _ => cr
  end.

(** Modelled from the spec: what awaiting [get_result()] comes to, a value
    or a timeout-kind error. *)
Inductive outcome : Type :=
| Returned (value : Z)
| TimeoutError.

(** Modelled from the spec: [get_result()] yields the delivered value, or
    fails with a timeout-kind error when the timer elapses with nothing
    delivered. The argument is the channel as it stands when the await
    settles. *)
Definition get_result (cr : t) : outcome :=
  match delivered cr with
  | value :: _ => Returned value
  | [] => TimeoutError
  end.

End CancelableResult.

(** ** How a call of [request] ends *)

(** An exception raised by the transport's [write], kept by its name. *)
Definition TransportError : Type := string.

(** What [await connection.write(...)] comes to. *)
Inductive WriteOutcome : Type :=
| WriteReturned
| WriteRaised (e : TransportError).

(** What the caller of [request] gets: the steps, or an exception, which is
    the timeout of [get_result], the exception of the write passed on
    unchanged, or the [AttributeError] of [None.get_result]. *)
Inductive RequestOutcome : Type :=
| Returns (steps : Z)
| RaisesTimeoutError
| RaisesFromWrite (e : TransportError)
| RaisesAttributeError.

(** [return await ...get_result()]: the value is returned, the exception is
    raised. *)
Definition outcome_of (o : CancelableResult.outcome) : RequestOutcome :=
  match o with
  | CancelableResult.Returned value => Returns value
  | CancelableResult.TimeoutError => RaisesTimeoutError
  end.

(** ** LifelogIO *)

Section LifelogIO.

(** [gshock_api.iolib.connection_protocol.ConnectionProtocol] and the two
    helpers of [gshock_api.utils] are collaborators outside this module. *)
Variable ConnectionProtocol : Type.
Variable to_hex_string : bytes -> string.
Variable to_compact_string : string -> string.

(** The class attributes. *)
Record LifelogIO : Type := mkLifelogIO {
  _connection : option ConnectionProtocol;
  _result : option CancelableResult.t;
  _buffer : bytes;
  _expected_len : option Z
}.

(** The class as it is before any call: the attribute defaults. *)
Definition initial : LifelogIO := mkLifelogIO None None [] None.

Definition with_result (r : option CancelableResult.t) (s : LifelogIO) :=
  mkLifelogIO (_connection s) r (_buffer s) (_expected_len s).
Definition with_buffer (b : bytes) (s : LifelogIO) :=
  mkLifelogIO (_connection s) (_result s) b (_expected_len s).
Definition with_expected_len (n : option Z) (s : LifelogIO) :=
  mkLifelogIO (_connection s) (_result s) (_buffer s) n.

(** What the module asks of the transport. *)
Inductive Effect : Type :=
| AwaitWrite (c : ConnectionProtocol) (category : Z) (text : string)
  (** [await connection.write(category, text)] *)
| CreateTaskWrite (c : ConnectionProtocol) (category : Z) (text : string)
  (** [asyncio.create_task(connection.write(category, text))] inside
      [try ... except Exception: pass]: the call is recorded; whether it
      schedules the write or raises, the handler carries on the same. *).

Definition _STEPS_OFFSET : Z := 374.

Definition start_cmd : bytes := [x00; x11; x00; x00; x00].
Definition end_cmd : bytes := [x04; x11; x00; x00; x00].

(** [await LifelogIO._result.get_result()] (source line 33), on the class
    state in which the await settles; [None] when the slot is empty. *)
Definition request_returns (s : LifelogIO) : option CancelableResult.outcome :=
  match _result s with
  | Some cr => Some (CancelableResult.get_result cr)
  | None => None
  end.

(** A coroutine suspended on an awaited write.  [resume] takes the outcome
    of that write and the class state in which the coroutine's last await
    settles: the handlers run, and change the class state, while the
    coroutine is suspended. *)
Record Suspended : Type := mkSuspended {
  awaited : Effect;
  resume : WriteOutcome -> LifelogIO -> RequestOutcome
}.

(** [LifelogIO.request] (source lines 21-33).  The first component is the
    class state left by the assignments of lines 24-27; the second is the
    coroutine suspended at the write of line 31.  A write that raises ends
    the call with that exception, before line 33; a write that returns is
    followed by the await of [get_result].  [None] for [timeout] is the
    omitted argument. *)
Definition request (connection : ConnectionProtocol) (timeout : option Q)
    (s : LifelogIO) : LifelogIO * Suspended :=
  let timeout := match timeout with Some t => t | None => 60%Q end in
  (mkLifelogIO (Some connection) (Some (CancelableResult.create timeout))
               [] None,
   mkSuspended
     (AwaitWrite connection 0x11 (to_compact_string (to_hex_string start_cmd)))
     (fun written settled =>
        match written with
        | WriteRaised e => RaisesFromWrite e
        | WriteReturned =>
            match request_returns settled with
            | Some o => outcome_of o
            | None => RaisesAttributeError
            end
        end)).

(** [LifelogIO._finalize_if_ready] (source lines 80-93). [set_result] acts
    on the channel object that [_result] refers to, which is also the one
    [request] awaits: the channel is kept in the slot. *)
Definition _finalize_if_ready (s : LifelogIO) : Exc LifelogIO :=
  match _result s with
  | None => Ok s
  | Some cr =>
      match _expected_len s with
      | None => Ok s
      | Some expected =>
          if len (_buffer s) <? expected then Ok s
          else if len (_buffer s) >=? _STEPS_OFFSET + 4 then
            steps <- unpack_from_u32_le (_buffer s) _STEPS_OFFSET ;;
            Ok (with_result (Some (CancelableResult.set_result steps cr)) s)
          else Ok s
      end
  end.

(** [LifelogIO.on_drsp_received] (source lines 35-52): a control-channel
    notification. Each [return] is an [Ok] of the state reached. *)
Definition on_drsp_received (data : bytes) (s : LifelogIO) : Exc LifelogIO :=
  if len data <? 5 then Ok s
  else
    command <- getitem data 0 ;;
    category <- getitem data 1 ;;
    if negb (category =? 0x11) then Ok s
    else
      d2 <- getitem data 2 ;;
      d3 <- getitem data 3 ;;
      d4 <- getitem data 4 ;;
      let length := Z.lor (Z.lor d2 (Z.shiftl d3 8)) (Z.shiftl d4 16) in
      let s := if command =? 0x00
               then with_expected_len (Some length) s else s in
      if command =? 0x04 then _finalize_if_ready s else Ok s.

(** [LifelogIO.on_convoy_received] (source lines 54-78): a data-channel
    notification. [bytearray.extend] appends in place. *)
Definition on_convoy_received (data : bytes) (s : LifelogIO)
    : Exc (LifelogIO * list Effect) :=
  match data with
  | [] => Ok (s, [])
  | _ :: _ =>
      let s := with_buffer (_buffer s ++ data) s in
      match _expected_len s with
      | None => Ok (s, [])
      | Some expected =>
          if len (_buffer s) >=? expected then
            let sent :=
              match _connection s with
              | Some c =>
                  [CreateTaskWrite c 0x11
                     (to_compact_string (to_hex_string end_cmd))]
              | None => []
              end in
            s <- _finalize_if_ready s ;;
            Ok (s, sent)
          else Ok (s, [])
      end
  end.

(** The host feeds raw control-channel and data-channel bytes through the
    two entry points, in the order the notifications are observed. *)
Inductive Notification : Type :=
| Drsp (data : bytes)
| Convoy (data : bytes).

Definition notify (n : Notification) (s : LifelogIO)
    : Exc (LifelogIO * list Effect) :=
  match n with
  | Drsp data => s <- on_drsp_received data s ;; Ok (s, [])
  | Convoy data => on_convoy_received data s
  end.

Fixpoint run (ns : list Notification) (s : LifelogIO)
    : Exc (LifelogIO * list Effect) :=
  match ns with
  | [] => Ok (s, [])
  | n :: rest =>
      r1 <- notify n s ;;
      r2 <- run rest (fst r1) ;;
      Ok (fst r2, snd r1 ++ snd r2)
  end.

End LifelogIO.

Arguments mkLifelogIO {ConnectionProtocol} _ _ _ _.
Arguments _connection {ConnectionProtocol} _.
Arguments _result {ConnectionProtocol} _.
Arguments _buffer {ConnectionProtocol} _.
Arguments _expected_len {ConnectionProtocol} _.
Arguments initial {ConnectionProtocol}.
Arguments with_result {ConnectionProtocol} r s.
Arguments with_buffer {ConnectionProtocol} b s.
Arguments with_expected_len {ConnectionProtocol} n s.
Arguments AwaitWrite {ConnectionProtocol} c category text.
Arguments CreateTaskWrite {ConnectionProtocol} c category text.
Arguments request_returns {ConnectionProtocol} s.
Arguments awaited {ConnectionProtocol} _.
Arguments resume {ConnectionProtocol} _ _ _.
Arguments _finalize_if_ready {ConnectionProtocol} s.
Arguments on_drsp_received {ConnectionProtocol} data s.

(** ** Vocabulary of the specification *)

(** A start-type control frame: at least five bytes, command 0x00 and
    category 0x11. *)
Definition is_start_frame (data : bytes) : bool :=
  match data with
  | command :: category :: _ :: _ :: _ :: _ =>
      (int_of_byte command =? 0x00) && (int_of_byte category =? 0x11)
  | _ => false
  end.

(** The length a control frame announces: bytes 2..4 as a 24-bit unsigned
    integer, least significant byte first. *)
Definition announced_length (data : bytes) : Z := uint_le (slice data 2 5).

(** The channel respects its one-shot contract: at most one value has been
    handed to the caller. *)
Definition one_shot (cr : CancelableResult.t) : Prop :=
  (List.length (CancelableResult.delivered cr) <= 1)%nat.

(** The values the caller of [request] has been handed so far. *)
Definition deliveries {C : Type} (s : LifelogIO C) : list Z :=
  match _result s with
  | Some cr => CancelableResult.delivered cr
  | None => []
  end.

(** The set-once reading of the expected length at one control-channel
    notification: a value already set survives the notification. *)
Definition keeps_expected_len {C : Type} (data : bytes) (s : LifelogIO C)
    : Prop :=
  forall n,
    _expected_len s = Some n ->
    exists s', on_drsp_received data s = Ok s' /\ _expected_len s' = Some n.

(** The unconditional reading of the data-channel handler at one
    notification: the bytes are appended, and once the expected length is
    reached the end frame goes out and finalization is attempted. *)
Definition appends_and_finalizes {C : Type}
    (to_hex_string : bytes -> string) (to_compact_string : string -> string)
    (data : bytes) (s : LifelogIO C) : Prop :=
  exists s' sent,
    on_convoy_received C to_hex_string to_compact_string data s
    = Ok (s', sent) /\
    _buffer s' = _buffer s ++ data /\
    (forall n,
        _expected_len s = Some n ->
        n <= len (_buffer s ++ data) ->
        (exists c,
            sent = [CreateTaskWrite c 0x11
                      (to_compact_string (to_hex_string end_cmd))]) /\
        _finalize_if_ready (with_buffer (_buffer s ++ data) s) = Ok s').

(** The unconditional reading of the driver at one call: the call ends as
    [get_result] of the channel in the result slot does. *)
Definition ends_as_get_result {C : Type}
    (o : RequestOutcome) (settled : LifelogIO C) : Prop :=
  exists cr,
    _result settled = Some cr /\
    o = outcome_of (CancelableResult.get_result cr).

(** ** A stand-in transport for the closed examples *)

Definition hex_digit (n : N) : Ascii.ascii :=
  Ascii.ascii_of_N (if (n <? 10)%N then 48 + n else 55 + n)%N.

Fixpoint example_hex_string (b : bytes) : string :=
  match b with
  | [] => EmptyString
  | x :: rest =>
      String (hex_digit (Byte.to_N x / 16))
        (String (hex_digit (Byte.to_N x mod 16)) (example_hex_string rest))
  end.

Definition example_compact_string (s : string) : string := s.

(** A 400-byte payload whose bytes 374..377 are [64 00 00 00]. *)
Definition payload_with_steps : bytes :=
  repeat x00 374 ++ [x64; x00; x00; x00] ++ repeat x00 22.

Definition start_frame_400 : bytes := [x00; x11; x90; x01; x00].
Definition start_frame_10 : bytes := [x00; x11; x0a; x00; x00].

(** The session [request] leaves on the stand-in transport, and the states
    the examples below start from. *)
Definition fresh_session : LifelogIO unit :=
  fst (request unit example_hex_string example_compact_string tt None initial).

Definition session_400 : LifelogIO unit :=
  mkLifelogIO (Some tt) (Some (CancelableResult.create 60)) [] (Some 400).

Definition ready_400 : LifelogIO unit :=
  mkLifelogIO (Some tt) (Some (CancelableResult.create 60))
              payload_with_steps (Some 400).

Definition short_10 : LifelogIO unit :=
  mkLifelogIO (Some tt) (Some (CancelableResult.create 60))
              (repeat x00 10) (Some 10).

Definition idle_400 : LifelogIO unit :=
  mkLifelogIO None None payload_with_steps (Some 400).

(** [payload_with_steps] in four chunks of 100 bytes. *)
Definition four_chunks : list bytes :=
  [repeat x00 100; repeat x00 100; repeat x00 100;
   repeat x00 74 ++ [x64; x00; x00; x00] ++ repeat x00 22].

(** The same payload cut unevenly, through the middle of the target field. *)
Definition uneven_chunks : list bytes :=
  [repeat x00 374 ++ [x64; x00]; [x00]; [x00] ++ repeat x00 22].

(** ** Vocabulary for sequences of notifications *)

(** An end-type control frame: at least five bytes, command 0x04 and
    category 0x11. *)
Definition is_end_frame (data : bytes) : bool :=
  match data with
  | command :: category :: _ :: _ :: _ :: _ =>
      (int_of_byte command =? 0x04) && (int_of_byte category =? 0x11)
  | _ => false
  end.

(** The bytes a notification carries on the data channel. *)
Definition payload (n : Notification) : bytes :=
  match n with
  | Drsp _ => []
  | Convoy data => data
  end.

Definition nonempty (b : bytes) : bool :=
  match b with
  | [] => false
  | _ :: _ => true
  end.

(** How one handler call may change the result slot: not at all, or by one
    [set_result] of the value at 374..377 of the buffer the call leaves. *)
Definition slot_step {C : Type} (s s' : LifelogIO C) : Prop :=
  _result s' = _result s \/
  exists cr,
    _result s = Some cr /\
    378 <= len (_buffer s') /\
    _result s'
    = Some (CancelableResult.set_result
              (uint_le (slice (_buffer s') 374 378)) cr).

(** Whatever the caller has been handed is the value at 374..377 of the
    buffer. *)
Definition delivered_from_buffer {C : Type} (s : LifelogIO C) : Prop :=
  deliveries s = [] \/
  (378 <= len (_buffer s) /\
   deliveries s = [uint_le (slice (_buffer s) 374 378)]).

(** The expected length, when set, fits in 24 bits. *)
Definition expected_len_in_range {C : Type} (s : LifelogIO C) : Prop :=
  forall n, _expected_len s = Some n -> 0 <= n < 2 ^ 24.

(** A payload of 20 bytes, too short to hold the target field. *)
Definition short_payload : bytes := repeat x01 20.

Definition pending_unannounced : LifelogIO unit :=
  mkLifelogIO (Some tt) (Some (CancelableResult.create 60)) [] None.

Definition announced_10 : LifelogIO unit :=
  mkLifelogIO (Some tt) (Some (CancelableResult.create 60)) [] (Some 10).

Definition end_frame : bytes := [x04; x11; x00; x00; x00].

(** ** Bytes and bit arithmetic *)

Ltac by_evaluation :=
  vm_compute; first [reflexivity | discriminate | lia].

Lemma int_of_byte_range (b : byte) : 0 <= int_of_byte b < 256.
Proof.
  unfold int_of_byte. pose proof (Byte.to_N_bounded b) as H. lia.
Qed.

Lemma int_of_byte_inj (a b : byte) : int_of_byte a = int_of_byte b -> a = b.
Proof.
  unfold int_of_byte. intros H. apply N2Z.inj in H.
  pose proof (Byte.of_to_N a) as Ha. pose proof (Byte.of_to_N b) as Hb.
  rewrite H in Ha. congruence.
Qed.

(** Below [2^n] no bit of [a] meets a bit of [b << n], so [|] adds. *)
Lemma lor_shiftl_add (a b n : Z) :
  0 <= n -> 0 <= a < 2 ^ n ->
  Z.lor a (Z.shiftl b n) = a + b * 2 ^ n.
Proof.
  intros Hn Ha.
  rewrite <- (Z.shiftl_mul_pow2 b n Hn).
  rewrite <- (Z.add_lor_land a (Z.shiftl b n)).
  assert (Hland : Z.land a (Z.shiftl b n) = 0).
  { apply Z.bits_inj'. intros m Hm.
    rewrite Z.land_spec, Z.bits_0.
    destruct (Z.ltb_spec m n) as [Hlt | Hge].
    - rewrite (Z.shiftl_spec_low b n m Hlt). apply andb_false_r.
    - destruct (Z.eq_dec a 0) as [-> | Hnz].
      + rewrite Z.bits_0. reflexivity.
      + rewrite (Z.bits_above_log2 a m); [reflexivity | lia |].
        apply Z.lt_le_trans with n; [| exact Hge].
        apply Z.log2_lt_pow2; lia. }
  rewrite Hland. lia.
Qed.

Lemma lor3_le (d2 d3 d4 : Z) :
  0 <= d2 < 256 -> 0 <= d3 < 256 -> 0 <= d4 ->
  Z.lor (Z.lor d2 (Z.shiftl d3 8)) (Z.shiftl d4 16)
  = d2 + 256 * d3 + 65536 * d4.
Proof.
  intros H2 H3 H4.
  rewrite (lor_shiftl_add d2 d3 8) by lia.
  rewrite lor_shiftl_add by lia.
  lia.
Qed.

Lemma lor4_le (d0 d1 d2 d3 : Z) :
  0 <= d0 < 256 -> 0 <= d1 < 256 -> 0 <= d2 < 256 -> 0 <= d3 ->
  Z.lor (Z.lor (Z.lor d0 (Z.shiftl d1 8)) (Z.shiftl d2 16)) (Z.shiftl d3 24)
  = d0 + 256 * (d1 + 256 * (d2 + 256 * d3)).
Proof.
  intros H0 H1 H2 H3.
  rewrite (lor3_le d0 d1 d2) by lia.
  rewrite lor_shiftl_add by lia.
  lia.
Qed.

Lemma len_app {A : Type} (l1 l2 : list A) : len (l1 ++ l2) = len l1 + len l2.
Proof. unfold len. rewrite length_app. lia. Qed.

Lemma len_nonneg {A : Type} (l : list A) : 0 <= len l.
Proof. unfold len. lia. Qed.

Lemma len_pos {A : Type} (l : list A) : l <> [] -> 0 < len l.
Proof. destruct l; [congruence | unfold len; simpl; lia]. Qed.

(** With four bytes available at [offset], [struct.unpack_from] returns the
    little-endian value of the slice. *)
Lemma unpack_from_u32_le_slice (buffer : bytes) (offset : nat) :
  Z.of_nat offset + 4 <= len buffer ->
  unpack_from_u32_le buffer (Z.of_nat offset)
  = Ok (uint_le (slice buffer offset (offset + 4))).
Proof.
  intros Hlen. unfold unpack_from_u32_le, slice.
  rewrite Nat2Z.id.
  replace (offset + 4 - offset)%nat with 4%nat by lia.
  pose proof (length_skipn offset buffer) as Hskip.
  unfold len in Hlen.
  destruct (skipn offset buffer) as [| b0 [| b1 [| b2 [| b3 tl]]]];
    simpl in Hskip; try lia.
  cbn [firstn uint_le]. f_equal.
  pose proof (int_of_byte_range b0). pose proof (int_of_byte_range b1).
  pose proof (int_of_byte_range b2). pose proof (int_of_byte_range b3).
  rewrite lor4_le by lia. lia.
Qed.

(** ** The handlers, case by case *)

Section Properties.

Context {ConnectionProtocol : Type}.
Variable to_hex_string : bytes -> string.
Variable to_compact_string : string -> string.

Local Abbreviation State := (LifelogIO ConnectionProtocol).
Local Abbreviation on_convoy :=
  (on_convoy_received ConnectionProtocol to_hex_string to_compact_string).
Local Abbreviation run_all :=
  (run ConnectionProtocol to_hex_string to_compact_string).

Lemma at_least_five (data : bytes) :
  5 <= len data ->
  exists c k b2 b3 b4 rest, data = c :: k :: b2 :: b3 :: b4 :: rest.
Proof.
  unfold len.
  destruct data as [| c [| k [| b2 [| b3 [| b4 rest]]]]]; simpl; try lia.
  intros _. now exists c, k, b2, b3, b4, rest.
Qed.

Lemma five_not_short (c k b2 b3 b4 : byte) (rest : bytes) :
  (len (c :: k :: b2 :: b3 :: b4 :: rest) <? 5) = false.
Proof.
  apply Z.ltb_ge. unfold len. cbn [List.length]. lia.
Qed.

(** What [on_drsp_received] does with a notification of five bytes or
    more, with the length written as a sum. *)
Lemma on_drsp_received_frame (c k b2 b3 b4 : byte) (rest : bytes) (s : State) :
  on_drsp_received (c :: k :: b2 :: b3 :: b4 :: rest) s =
  if negb (int_of_byte k =? 0x11) then Ok s
  else
    let length :=
      int_of_byte b2 + 256 * int_of_byte b3 + 65536 * int_of_byte b4 in
    let s1 := if int_of_byte c =? 0x00
              then with_expected_len (Some length) s else s in
    if int_of_byte c =? 0x04 then _finalize_if_ready s1 else Ok s1.
Proof.
  unfold on_drsp_received. rewrite five_not_short.
  cbn [getitem nth_error bind].
  destruct (negb (int_of_byte k =? 17)); [reflexivity |].
  pose proof (int_of_byte_range b2). pose proof (int_of_byte_range b3).
  pose proof (int_of_byte_range b4).
  rewrite lor3_le by lia. reflexivity.
Qed.

(** The guards of [_finalize_if_ready] keep [struct.unpack_from] in range:
    finalization never raises, and it touches the result slot only. *)
Lemma finalize_total (s : State) :
  exists s',
    _finalize_if_ready s = Ok s' /\
    _connection s' = _connection s /\
    _buffer s' = _buffer s /\
    _expected_len s' = _expected_len s /\
    (_result s = None -> s' = s).
Proof.
  unfold _finalize_if_ready.
  destruct (_result s) as [cr |] eqn:Hres; [| now exists s].
  destruct (_expected_len s) as [expected |] eqn:Hexp;
    [| exists s; repeat split; congruence].
  destruct (len (_buffer s) <? expected);
    [exists s; repeat split; congruence |].
  destruct (Z.geb_spec (len (_buffer s)) (_STEPS_OFFSET + 4)) as [Hge | Hlt];
    [| exists s; repeat split; congruence].
  change _STEPS_OFFSET with (Z.of_nat 374) in *.
  rewrite unpack_from_u32_le_slice by exact Hge.
  cbn [bind]. eexists; split; [reflexivity |].
  cbn. repeat split; congruence.
Qed.

Lemma finalize_without_request (s : State) :
  _result s = None -> _finalize_if_ready s = Ok s.
Proof.
  intros H. unfold _finalize_if_ready. now rewrite H.
Qed.

(** Finalization on an eligible state hands the little-endian value at
    374..377 to [set_result]. *)
Lemma finalize_eligible (s : State) (cr : CancelableResult.t) (n : Z) :
  _result s = Some cr ->
  _expected_len s = Some n ->
  n <= len (_buffer s) ->
  378 <= len (_buffer s) ->
  _finalize_if_ready s =
  Ok (with_result
        (Some (CancelableResult.set_result
                 (uint_le (slice (_buffer s) 374 378)) cr)) s).
Proof.
  intros Hres Hexp Hn Hlen. unfold _finalize_if_ready.
  rewrite Hres, Hexp.
  destruct (Z.ltb_spec (len (_buffer s)) n) as [Hlt | _]; [lia |].
  destruct (Z.geb_spec (len (_buffer s)) (_STEPS_OFFSET + 4)) as [_ | Hlt];
    [| unfold _STEPS_OFFSET in Hlt; lia].
  change _STEPS_OFFSET with (Z.of_nat 374).
  rewrite unpack_from_u32_le_slice by (change (Z.of_nat 374) with 374; lia).
  reflexivity.
Qed.

Lemma set_result_one_shot (v : Z) (cr : CancelableResult.t) :
  one_shot cr ->
  List.length (CancelableResult.delivered (CancelableResult.set_result v cr))
  = 1%nat.
Proof.
  unfold one_shot, CancelableResult.set_result.
  destruct (CancelableResult.delivered cr) as [| w [| w' tl]] eqn:Hd;
    cbn; rewrite ?Hd; cbn; lia.
Qed.

Lemma set_result_twice (v w : Z) (cr : CancelableResult.t) :
  CancelableResult.set_result w (CancelableResult.set_result v cr)
  = CancelableResult.set_result v cr.
Proof.
  unfold CancelableResult.set_result.
  destruct (CancelableResult.delivered cr) eqn:Hd; cbn; rewrite ?Hd;
    reflexivity.
Qed.

(** ** Control-channel notifications *)

(** C6: a control-channel notification shorter than five bytes leaves the
    whole class state as it was: the expected length, the buffer, the
    connection and the result slot.  No finalization takes place, even on a
    state in which finalization would deliver a value. *)
Theorem drsp_short_ignored (data : bytes) (s : State) :
  len data < 5 -> on_drsp_received data s = Ok s.
Proof.
  intros Hshort. unfold on_drsp_received.
  apply Z.ltb_lt in Hshort. now rewrite Hshort.
Qed.

(** C7: a control-channel notification of at least five bytes whose byte 1
    (the category) is not 0x11 leaves the whole class state as it was. *)
Theorem drsp_other_category_ignored
    (data : bytes) (s : State) (category : Z) :
  5 <= len data ->
  getitem data 1 = Ok category ->
  category <> 0x11 ->
  on_drsp_received data s = Ok s.
Proof.
  intros Hlen Hcat Hne.
  destruct (at_least_five data Hlen) as (c & k & b2 & b3 & b4 & rest & ->).
  rewrite on_drsp_received_frame.
  cbn in Hcat. injection Hcat as Hk.
  apply Z.eqb_neq in Hne. rewrite Hk, Hne. reflexivity.
Qed.

(** C8: on a control-channel notification of at least five bytes with byte 0
    = 0x00 and byte 1 = 0x11 the handler sets the expected length to
    data[2] + 256*data[3] + 65536*data[4]; the buffer, the result slot and
    the connection stay as they were. *)
Theorem drsp_start_sets_expected_len
    (data : bytes) (s : State) (d2 d3 d4 : Z) :
  5 <= len data ->
  getitem data 0 = Ok 0x00 ->
  getitem data 1 = Ok 0x11 ->
  getitem data 2 = Ok d2 ->
  getitem data 3 = Ok d3 ->
  getitem data 4 = Ok d4 ->
  exists s',
    on_drsp_received data s = Ok s' /\
    _expected_len s' = Some (d2 + 256 * d3 + 65536 * d4) /\
    _buffer s' = _buffer s /\
    _result s' = _result s /\
    _connection s' = _connection s.
Proof.
  intros Hlen H0 H1 H2 H3 H4.
  destruct (at_least_five data Hlen) as (c & k & b2 & b3 & b4 & rest & ->).
  rewrite on_drsp_received_frame.
  cbn in H0, H1, H2, H3, H4.
  injection H0 as ->. injection H1 as ->.
  injection H2 as ->. injection H3 as ->. injection H4 as ->.
  eexists. split; [reflexivity |]. cbn. now repeat split.
Qed.

Lemma announced_length_frame (c k b2 b3 b4 : byte) (rest : bytes) :
  announced_length (c :: k :: b2 :: b3 :: b4 :: rest)
  = int_of_byte b2 + 256 * int_of_byte b3 + 65536 * int_of_byte b4.
Proof.
  unfold announced_length, slice.
  cbn [Nat.sub skipn firstn uint_le]. lia.
Qed.

(** C3, amended: a control-channel notification changes the expected length
    only when it is a start-type frame, and then the expected length becomes
    the length that frame announces, whether or not one was set before;
    every other control-channel notification keeps the value already set. *)
Theorem expected_len_changes_only_on_start
    (data : bytes) (s : State) (n : Z) :
  _expected_len s = Some n ->
  exists s',
    on_drsp_received data s = Ok s' /\
    _expected_len s'
    = Some (if is_start_frame data then announced_length data else n).
Proof.
  intros Hset.
  destruct (Z.ltb_spec (len data) 5) as [Hshort | Hlen].
  - exists s. split.
    + unfold on_drsp_received. apply Z.ltb_lt in Hshort. now rewrite Hshort.
    + assert (is_start_frame data = false) as ->; [| exact Hset].
      unfold len in Hshort.
      destruct data as [| c [| k [| b2 [| b3 [| b4 rest]]]]];
        try reflexivity.
      cbn in Hshort. lia.
  - destruct (at_least_five data Hlen) as (c & k & b2 & b3 & b4 & rest & ->).
    rewrite on_drsp_received_frame, announced_length_frame.
    cbn [is_start_frame].
    destruct (int_of_byte k =? 17) eqn:Hk; cbn [negb andb].
    + destruct (Z.eqb_spec (int_of_byte c) 0) as [Hc | Hc].
      * rewrite Hc. cbn. eexists; split; reflexivity.
      * cbn zeta. cbn [andb].
        destruct (int_of_byte c =? 4).
        -- destruct (finalize_total s) as (s' & Hfin & _ & _ & Hexp & _).
           exists s'. split; [exact Hfin | congruence].
        -- now exists s.
    + rewrite andb_false_r. now exists s.
Qed.

(** ** Finalization *)

(** C4: when the expected length is set and reached but the buffer holds
    fewer than 378 bytes, finalization changes nothing: the result channel
    is given no value, and a caller whose channel was still pending can only
    get the timeout. *)
Theorem short_payload_not_resolved (s : State) (n : Z) :
  _expected_len s = Some n ->
  n <= len (_buffer s) ->
  len (_buffer s) < 378 ->
  exists s',
    _finalize_if_ready s = Ok s' /\
    s' = s /\
    (_result s <> None -> deliveries s = [] ->
     request_returns s' = Some CancelableResult.TimeoutError).
Proof.
  intros Hexp Hn Hshort. exists s. split; [| split; [reflexivity |]].
  - unfold _finalize_if_ready. rewrite Hexp.
    destruct (_result s); [| reflexivity].
    destruct (Z.ltb_spec (len (_buffer s)) n); [reflexivity |].
    destruct (Z.geb_spec (len (_buffer s)) (_STEPS_OFFSET + 4)) as [Hge | _];
      [unfold _STEPS_OFFSET in Hge; lia | reflexivity].
  - unfold deliveries, request_returns, CancelableResult.get_result.
    destruct (_result s) as [cr |]; [| congruence].
    intros _ ->. reflexivity.
Qed.

(** C2: on a state that satisfies the eligibility condition (expected
    length set, buffer at least that long and at least 378 bytes), two
    finalizations in a row leave the caller with exactly one delivered
    value: the second invocation changes nothing, and on a channel that was
    still pending the one value is the little-endian integer at 374..377. *)
Theorem finalize_twice_delivers_once
    (s : State) (cr : CancelableResult.t) (n : Z) :
  _result s = Some cr ->
  one_shot cr ->
  _expected_len s = Some n ->
  n <= len (_buffer s) ->
  378 <= len (_buffer s) ->
  exists s1 s2,
    _finalize_if_ready s = Ok s1 /\
    _finalize_if_ready s1 = Ok s2 /\
    s2 = s1 /\
    List.length (deliveries s2) = 1%nat /\
    (CancelableResult.delivered cr = [] ->
     deliveries s2 = [uint_le (slice (_buffer s) 374 378)]).
Proof.
  intros Hres Hone Hexp Hn Hlen.
  pose proof (finalize_eligible s cr n Hres Hexp Hn Hlen) as H1.
  set (v := uint_le (slice (_buffer s) 374 378)) in *.
  set (s1 := with_result (Some (CancelableResult.set_result v cr)) s) in *.
  assert (H2 : _finalize_if_ready s1 = Ok s1).
  { rewrite (finalize_eligible s1 (CancelableResult.set_result v cr) n);
      try assumption; try reflexivity.
    unfold s1, with_result. cbn. now rewrite set_result_twice. }
  exists s1, s1. repeat split; try assumption.
  - unfold deliveries, s1. cbn. now apply set_result_one_shot.
  - intros Hpending. unfold deliveries, s1. cbn.
    unfold CancelableResult.set_result. now rewrite Hpending.
Qed.

(** ** Data-channel notifications *)

Lemma on_convoy_empty (s : State) : on_convoy [] s = Ok (s, []).
Proof. reflexivity. Qed.

Lemma on_convoy_unannounced (data : bytes) (s : State) :
  data <> [] ->
  _expected_len s = None ->
  on_convoy data s = Ok (with_buffer (_buffer s ++ data) s, []).
Proof.
  intros Hne Hexp. destruct data as [| x data]; [congruence |].
  unfold on_convoy_received. cbn [with_buffer _expected_len].
  now rewrite Hexp.
Qed.

Lemma on_convoy_below (data : bytes) (s : State) (n : Z) :
  data <> [] ->
  _expected_len s = Some n ->
  len (_buffer s ++ data) < n ->
  on_convoy data s = Ok (with_buffer (_buffer s ++ data) s, []).
Proof.
  intros Hne Hexp Hlt. destruct data as [| x data]; [congruence |].
  unfold on_convoy_received. cbn [with_buffer _expected_len _buffer].
  rewrite Hexp.
  destruct (Z.geb_spec (len (_buffer s ++ x :: data)) n); [lia | reflexivity].
Qed.

Lemma on_convoy_reached (data : bytes) (s : State) (n : Z) :
  data <> [] ->
  _expected_len s = Some n ->
  n <= len (_buffer s ++ data) ->
  on_convoy data s =
  (s' <- _finalize_if_ready (with_buffer (_buffer s ++ data) s) ;;
   Ok (s',
       match _connection s with
       | Some c =>
           [CreateTaskWrite c 0x11 (to_compact_string (to_hex_string end_cmd))]
       | None => []
       end)).
Proof.
  intros Hne Hexp Hge. destruct data as [| x data]; [congruence |].
  unfold on_convoy_received.
  cbn [with_buffer _expected_len _buffer _connection].
  rewrite Hexp.
  destruct (Z.geb_spec (len (_buffer s ++ x :: data)) n); [reflexivity | lia].
Qed.

(** C5, amended: an empty payload is ignored outright.  A non-empty payload
    is appended to the buffer; if the expected length is set and reached
    after the append, the end frame [04 11 00 00 00] is handed to
    [asyncio.create_task] when a connection is bound, and the handler ends
    in the state finalization yields; otherwise the append is all that
    happens. *)
Theorem convoy_received_spec (data : bytes) (s : State) :
  (data = [] -> on_convoy data s = Ok (s, [])) /\
  (data <> [] ->
   (forall n,
       _expected_len s = Some n ->
       n <= len (_buffer s ++ data) ->
       exists s',
         _finalize_if_ready (with_buffer (_buffer s ++ data) s) = Ok s' /\
         _buffer s' = _buffer s ++ data /\
         on_convoy data s
         = Ok (s',
               match _connection s with
               | Some c =>
                   [CreateTaskWrite c 0x11
                      (to_compact_string
                         (to_hex_string [x04; x11; x00; x00; x00]))]
               | None => []
               end)) /\
   ((forall n, _expected_len s = Some n -> len (_buffer s ++ data) < n) ->
    on_convoy data s = Ok (with_buffer (_buffer s ++ data) s, []))).
Proof.
  split; [intros ->; reflexivity |].
  intros Hne. split.
  - intros n Hexp Hge.
    rewrite (on_convoy_reached data s n Hne Hexp Hge).
    destruct (finalize_total (with_buffer (_buffer s ++ data) s))
      as (s' & Hfin & _ & Hbuf & _).
    exists s'. rewrite Hfin. cbn [bind]. repeat split; assumption.
  - intros Hbelow. destruct (_expected_len s) as [n |] eqn:Hexp.
    + apply (on_convoy_below data s n Hne Hexp). now apply Hbelow.
    + now apply on_convoy_unannounced.
Qed.

(** ** Sequences of notifications *)

Lemma on_drsp_received_total (data : bytes) (s : State) :
  exists s',
    on_drsp_received data s = Ok s' /\
    _buffer s' = _buffer s /\
    (_result s = None -> _result s' = None).
Proof.
  destruct (Z.ltb_spec (len data) 5) as [Hshort | Hlen].
  - exists s. unfold on_drsp_received.
    apply Z.ltb_lt in Hshort. now rewrite Hshort.
  - destruct (at_least_five data Hlen) as (c & k & b2 & b3 & b4 & rest & ->).
    rewrite on_drsp_received_frame.
    destruct (negb (int_of_byte k =? 17)); [now exists s |].
    cbn zeta.
    set (s1 := if int_of_byte c =? 0 then _ else s).
    assert (Hs1 : _buffer s1 = _buffer s /\ _result s1 = _result s)
      by (unfold s1; destruct (int_of_byte c =? 0); now split).
    destruct Hs1 as [Hb Hr].
    destruct (int_of_byte c =? 4).
    + destruct (finalize_total s1) as (s' & Hfin & _ & Hbuf & _ & Hnone).
      exists s'. repeat split; [exact Hfin | congruence |].
      intros Hn. rewrite Hnone by congruence. congruence.
    + exists s1. repeat split; congruence.
Qed.

Lemma on_convoy_total (data : bytes) (s : State) :
  exists s' sent,
    on_convoy data s = Ok (s', sent) /\
    _buffer s' = _buffer s ++ data /\
    (_result s = None -> _result s' = None).
Proof.
  destruct data as [| x data].
  - exists s, []. rewrite app_nil_r. now repeat split.
  - set (d := x :: data). assert (Hne : d <> []) by discriminate.
    destruct (_expected_len s) as [n |] eqn:Hexp.
    + destruct (Z.le_gt_cases n (len (_buffer s ++ d))) as [Hge | Hlt].
      * rewrite (on_convoy_reached d s n Hne Hexp Hge).
        destruct (finalize_total (with_buffer (_buffer s ++ d) s))
          as (s' & Hfin & _ & Hbuf & _ & Hnone).
        rewrite Hfin. cbn [bind]. eexists _, _.
        repeat split; [exact Hbuf |].
        intros Hn. rewrite Hnone by exact Hn. exact Hn.
      * rewrite (on_convoy_below d s n Hne Hexp) by lia.
        eexists _, _. now repeat split.
    + rewrite (on_convoy_unannounced d s Hne Hexp).
      eexists _, _. now repeat split.
Qed.

(** No sequence of notifications makes a handler raise. *)
Lemma run_total (ns : list Notification) :
  forall s : State,
  exists s' sent,
    run_all ns s = Ok (s', sent) /\
    (_result s = None -> _result s' = None).
Proof.
  induction ns as [| n ns IH]; intros s.
  - now exists s, [].
  - cbn [run].
    assert (Hstep : exists s1 sent1,
               notify ConnectionProtocol to_hex_string to_compact_string n s
               = Ok (s1, sent1) /\
               (_result s = None -> _result s1 = None)).
    { destruct n as [data | data]; cbn [notify].
      - destruct (on_drsp_received_total data s) as (s1 & H1 & _ & Hn).
        exists s1, []. rewrite H1. now split.
      - destruct (on_convoy_total data s) as (s1 & sent1 & H1 & _ & Hn).
        now exists s1, sent1. }
    destruct Hstep as (s1 & sent1 & H1 & Hn1).
    destruct (IH s1) as (s2 & sent2 & H2 & Hn2).
    rewrite H1. cbn [bind fst snd]. rewrite H2. cbn [bind fst snd].
    eexists _, _. split; [reflexivity | auto].
Qed.

(** C10: while no request is active (the result slot is [None]), every
    sequence of control-channel and data-channel notifications runs to the
    end without raising, the slot stays [None], nothing is delivered, and
    finalization on the state reached changes nothing. *)
Theorem no_request_no_resolution (ns : list Notification) (s : State) :
  _result s = None ->
  exists s' sent,
    run_all ns s = Ok (s', sent) /\
    _result s' = None /\
    deliveries s' = [] /\
    _finalize_if_ready s' = Ok s'.
Proof.
  intros Hnone.
  destruct (run_total ns s) as (s' & sent & Hrun & Hkeep).
  specialize (Hkeep Hnone).
  exists s', sent. repeat split; try assumption.
  - unfold deliveries. now rewrite Hkeep.
  - now apply finalize_without_request.
Qed.

(** ** Reassembly *)

Lemma run_cons (n : Notification) (ns : list Notification)
    (s s1 s2 : State) (sent1 sent2 : list (Effect ConnectionProtocol)) :
  notify ConnectionProtocol to_hex_string to_compact_string n s
  = Ok (s1, sent1) ->
  run_all ns s1 = Ok (s2, sent2) ->
  run_all (n :: ns) s = Ok (s2, sent1 ++ sent2).
Proof.
  intros H1 H2. cbn [run]. rewrite H1. cbn [bind fst snd].
  rewrite H2. reflexivity.
Qed.

(** Chunks that together bring the buffer to exactly the expected length:
    the last one, and only the last one, finalizes. *)
Lemma run_chunks (chunks : list bytes) :
  forall (s : State) (cr : CancelableResult.t) (n : Z),
    _result s = Some cr ->
    CancelableResult.delivered cr = [] ->
    _expected_len s = Some n ->
    Forall (fun chunk => chunk <> []) chunks ->
    chunks <> [] ->
    len (_buffer s ++ concat chunks) = n ->
    378 <= n ->
    exists s' sent,
      run_all (map Convoy chunks) s = Ok (s', sent) /\
      deliveries s'
      = [uint_le (slice (_buffer s ++ concat chunks) 374 378)].
Proof.
  induction chunks as [| chunk rest IH];
    intros s cr n Hres Hpending Hexp Hall Hne Hlen Hbig; [congruence |].
  apply Forall_cons_iff in Hall as [Hchunk Hrest].
  cbn [map concat] in *.
  destruct rest as [| chunk' rest'].
  - (* the last chunk *)
    cbn [concat map] in *. rewrite app_nil_r in *.
    set (s1 := with_buffer (_buffer s ++ chunk) s).
    pose proof (on_convoy_reached chunk s n Hchunk Hexp ltac:(lia)) as Hc.
    fold s1 in Hc.
    rewrite (finalize_eligible s1 cr n) in Hc;
      [| assumption | assumption
       | cbn [s1 with_buffer _buffer]; lia
       | cbn [s1 with_buffer _buffer]; lia].
    cbn [bind] in Hc.
    eexists _, _. split.
    + apply (run_cons (Convoy chunk) []) with (1 := Hc). reflexivity.
    + unfold deliveries. cbn. unfold CancelableResult.set_result.
      now rewrite Hpending.
  - (* more chunks follow: the watermark is not reached yet *)
    set (more := chunk' :: rest') in *.
    assert (Hmore : 0 < len (concat more)).
    { apply Forall_cons_iff in Hrest as [Hc' _].
      unfold more. cbn [concat]. rewrite len_app.
      pose proof (len_pos chunk' Hc'). pose proof (len_nonneg (concat rest')).
      lia. }
    rewrite app_assoc in *. rewrite len_app in Hlen.
    pose proof (on_convoy_below chunk s n Hchunk Hexp ltac:(lia)) as Hc.
    set (s1 := with_buffer (_buffer s ++ chunk) s) in *.
    destruct (IH s1 cr n) as (s' & sent & Hrun & Hdel); try assumption.
    + unfold more. discriminate.
    + cbn [s1 with_buffer _buffer]. rewrite len_app. exact Hlen.
    + exists s', ([] ++ sent). split; [| exact Hdel].
      now apply (run_cons (Convoy chunk) (map Convoy more)) with (1 := Hc).
Qed.

(** C1: let [b] hold at least 378 bytes and be cut into non-empty chunks in
    any way.  On a session with an empty buffer and a pending result
    channel, a start frame announcing [len b] followed by the chunks in
    order delivers the little-endian unsigned 32-bit integer at [b[374:378]],
    and that is what [request] returns, whatever the cut. *)
Theorem chunking_invariance
    (b : bytes) (chunks : list bytes) (frame : bytes)
    (s : State) (cr : CancelableResult.t) :
  378 <= len b ->
  concat chunks = b ->
  Forall (fun chunk => chunk <> []) chunks ->
  is_start_frame frame = true ->
  announced_length frame = len b ->
  _buffer s = [] ->
  _result s = Some cr ->
  CancelableResult.delivered cr = [] ->
  exists s' sent,
    run_all (Drsp frame :: map Convoy chunks) s = Ok (s', sent) /\
    deliveries s' = [uint_le (slice b 374 378)] /\
    request_returns s'
    = Some (CancelableResult.Returned (uint_le (slice b 374 378))).
Proof.
  intros Hbig Hcat Hall Hstart Hann Hbuf Hres Hpending.
  assert (Hframe : on_drsp_received frame s
                   = Ok (with_expected_len (Some (len b)) s)).
  { destruct frame as [| c [| k [| b2 [| b3 [| b4 rest]]]]];
      try discriminate Hstart.
    cbn [is_start_frame] in Hstart.
    apply andb_true_iff in Hstart as [Hc Hk].
    apply Z.eqb_eq in Hc.
    rewrite on_drsp_received_frame, Hc, Hk. cbn [negb Z.eqb]. cbn zeta.
    rewrite announced_length_frame in Hann. now rewrite Hann. }
  set (s1 := with_expected_len (Some (len b)) s) in *.
  assert (Hchunks : chunks <> []).
  { intros ->. cbn in Hcat. subst b. cbn in Hbig. lia. }
  destruct (run_chunks chunks s1 cr (len b)) as (s' & sent & Hrun & Hdel);
    try assumption; try reflexivity.
  { cbn [s1 with_expected_len _buffer]. rewrite Hbuf, Hcat. reflexivity. }
  cbn [s1 with_expected_len _buffer] in Hdel.
  rewrite Hbuf, Hcat in Hdel. cbn [app] in Hdel.
  exists s', ([] ++ sent). split; [| split; [exact Hdel |]].
  - apply (run_cons (Drsp frame) (map Convoy chunks) s s1 s' [] sent);
      [| exact Hrun].
    cbn [notify]. now rewrite Hframe.
  - unfold deliveries in Hdel. unfold request_returns.
    destruct (_result s') as [cr' |]; [| discriminate Hdel].
    unfold CancelableResult.get_result. now rewrite Hdel.
Qed.

End Properties.

(** ** Closed instances *)

(** The scenario of the specification: a start frame announcing 400, four
    chunks of 100 bytes, bytes 374..377 equal to [64 00 00 00]: [request]
    returns 100, and one end frame was scheduled. *)
Example scenario_four_chunks :
  bind (run unit example_hex_string example_compact_string
          (Drsp start_frame_400 :: map Convoy four_chunks) fresh_session)
       (fun r => Ok (request_returns (fst r), snd r))
  = Ok (Some (CancelableResult.Returned 100),
        [CreateTaskWrite tt 0x11 "0411000000"%string]).
Proof. vm_compute. reflexivity. Qed.

(** No data-channel notification ever arrives: the caller gets the timeout. *)
Example scenario_no_data :
  request_returns fresh_session = Some CancelableResult.TimeoutError.
Proof. reflexivity. Qed.

(** A start frame announcing 10 and then 10 bytes: nothing is resolved. *)
Example scenario_length_10 :
  bind (run unit example_hex_string example_compact_string
          [Drsp start_frame_10; Convoy (repeat x00 10)] fresh_session)
       (fun r => Ok (request_returns (fst r)))
  = Ok (Some CancelableResult.TimeoutError).
Proof. vm_compute. reflexivity. Qed.

Example request_sends_start_frame :
  awaited
    (snd (request unit example_hex_string example_compact_string
            tt None initial))
  = AwaitWrite tt 0x11 "0011000000"%string.
Proof. vm_compute. reflexivity. Qed.

(** The same scenario seen from the caller: the write returns, the
    notifications arrive, and the call returns 100. *)
Example scenario_call_returns_100 :
  bind (run unit example_hex_string example_compact_string
          (Drsp start_frame_400 :: map Convoy four_chunks) fresh_session)
       (fun r =>
          Ok (resume
                (snd (request unit example_hex_string example_compact_string
                        tt None initial))
                WriteReturned (fst r)))
  = Ok (Returns 100).
Proof. vm_compute. reflexivity. Qed.

(** C9 as stated fails when the write of the start frame raises: the call
    ends with the exception of the write, not as [get_result] would, which
    on the session just created is the timeout. *)
Lemma request_write_failure_propagates :
  ~ ends_as_get_result
      (resume
         (snd (request unit example_hex_string example_compact_string
                 tt None initial))
         (WriteRaised "ConnectionError"%string) fresh_session)
      fresh_session.
Proof.
  intros (cr & _ & Hout). cbn in Hout.
  destruct (CancelableResult.get_result cr); discriminate Hout.
Qed.

Lemma chunking_invariance_witness :
  exists s' sent,
    run unit example_hex_string example_compact_string
      (Drsp start_frame_400 :: map Convoy uneven_chunks) fresh_session
    = Ok (s', sent) /\
    deliveries s' = [uint_le (slice payload_with_steps 374 378)] /\
    request_returns s'
    = Some (CancelableResult.Returned
              (uint_le (slice payload_with_steps 374 378))).
Proof.
  apply (chunking_invariance example_hex_string example_compact_string
           payload_with_steps uneven_chunks start_frame_400 fresh_session
           (CancelableResult.create 60)).
  - by_evaluation.
  - by_evaluation.
  - repeat constructor; discriminate.
  - by_evaluation.
  - by_evaluation.
  - by_evaluation.
  - by_evaluation.
  - by_evaluation.
Defined.

Lemma finalize_twice_delivers_once_witness :
  exists s1 s2,
    _finalize_if_ready ready_400 = Ok s1 /\
    _finalize_if_ready s1 = Ok s2 /\
    s2 = s1 /\
    List.length (deliveries s2) = 1%nat /\
    (CancelableResult.delivered (CancelableResult.create 60) = [] ->
     deliveries s2 = [uint_le (slice (_buffer ready_400) 374 378)]).
Proof.
  apply (finalize_twice_delivers_once ready_400
           (CancelableResult.create 60) 400).
  - by_evaluation.
  - unfold one_shot. cbn. lia.
  - by_evaluation.
  - by_evaluation.
  - by_evaluation.
Defined.

(** C3 as stated fails: after [request], a start frame sets the expected
    length to 400, and a second start frame announcing 10 overwrites it. *)
Lemma expected_len_overwritten :
  on_drsp_received start_frame_400 fresh_session = Ok session_400 /\
  ~ keeps_expected_len start_frame_10 session_400.
Proof.
  split; [vm_compute; reflexivity |].
  intros Hkeep.
  destruct (Hkeep 400 eq_refl) as (s' & Hrun & Hexp).
  vm_compute in Hrun. injection Hrun as <-.
  discriminate Hexp.
Qed.

Lemma expected_len_changes_only_on_start_witness :
  exists s',
    on_drsp_received start_frame_10 session_400 = Ok s' /\
    _expected_len s'
    = Some (if is_start_frame start_frame_10
            then announced_length start_frame_10 else 400).
Proof.
  apply (expected_len_changes_only_on_start start_frame_10 session_400 400).
  reflexivity.
Defined.

Lemma short_payload_not_resolved_witness :
  exists s',
    _finalize_if_ready short_10 = Ok s' /\
    s' = short_10 /\
    (_result short_10 <> None -> deliveries short_10 = [] ->
     request_returns s' = Some CancelableResult.TimeoutError).
Proof.
  apply (short_payload_not_resolved short_10 10).
  - by_evaluation.
  - by_evaluation.
  - by_evaluation.
Defined.

(** C5 as stated fails on the empty payload: the expected length 400 is set
    and the buffer already holds 400 bytes, yet the handler returns at once,
    with no end frame and no finalization. *)
Lemma convoy_empty_payload_ignored :
  ~ appends_and_finalizes example_hex_string example_compact_string
      [] ready_400.
Proof.
  intros (s' & sent & Hrun & _ & Hreached).
  cbn [on_convoy_received] in Hrun. injection Hrun as <- <-.
  destruct (Hreached 400 eq_refl ltac:(by_evaluation)) as [[c Hsent] _].
  discriminate Hsent.
Qed.

Lemma convoy_received_spec_witness :
  exists s',
    _finalize_if_ready
      (with_buffer (_buffer session_400 ++ payload_with_steps) session_400)
    = Ok s' /\
    _buffer s' = _buffer session_400 ++ payload_with_steps /\
    on_convoy_received unit example_hex_string example_compact_string
      payload_with_steps session_400
    = Ok (s',
          [CreateTaskWrite tt 0x11
             (example_compact_string
                (example_hex_string [x04; x11; x00; x00; x00]))]).
Proof.
  apply (proj1 (proj2 (convoy_received_spec
                         example_hex_string example_compact_string
                         payload_with_steps session_400)
                  ltac:(discriminate)) 400).
  - reflexivity.
  - by_evaluation.
Defined.

(** On [ready_400] finalization would deliver 100, so a handler that
    returns [ready_400] itself has not finalized. *)
Example finalization_would_deliver :
  bind (_finalize_if_ready ready_400) (fun s => Ok (deliveries s))
  = Ok [100] /\
  deliveries ready_400 = [].
Proof. split; vm_compute; reflexivity. Qed.

Lemma drsp_short_ignored_witness :
  on_drsp_received [x04; x11; x00; x00] ready_400 = Ok ready_400.
Proof.
  apply drsp_short_ignored. by_evaluation.
Defined.

Lemma drsp_other_category_ignored_witness :
  on_drsp_received [x04; x10; x00; x00; x00] ready_400 = Ok ready_400.
Proof.
  apply (drsp_other_category_ignored _ _ 0x10).
  - by_evaluation.
  - by_evaluation.
  - by_evaluation.
Defined.

Lemma drsp_start_sets_expected_len_witness :
  exists s',
    on_drsp_received start_frame_400 fresh_session = Ok s' /\
    _expected_len s' = Some (0x90 + 256 * 0x01 + 65536 * 0x00) /\
    _buffer s' = _buffer fresh_session /\
    _result s' = _result fresh_session /\
    _connection s' = _connection fresh_session.
Proof.
  apply drsp_start_sets_expected_len.
  - by_evaluation.
  - by_evaluation.
  - by_evaluation.
  - by_evaluation.
  - by_evaluation.
  - by_evaluation.
Defined.

Lemma no_request_no_resolution_witness :
  exists s' sent,
    run unit example_hex_string example_compact_string
      [Convoy [x00]; Drsp end_cmd; Drsp start_frame_400; Convoy [x01; x02]]
      idle_400
    = Ok (s', sent) /\
    _result s' = None /\
    deliveries s' = [] /\
    _finalize_if_ready s' = Ok s'.
Proof.
  apply no_request_no_resolution. reflexivity.
Defined.

(** ** Behaviour over arbitrary notification sequences *)

Section Behaviour.

Context {ConnectionProtocol : Type}.
Variable to_hex_string : bytes -> string.
Variable to_compact_string : string -> string.

Local Abbreviation State := (LifelogIO ConnectionProtocol).
Local Abbreviation on_convoy :=
  (on_convoy_received ConnectionProtocol to_hex_string to_compact_string).
Local Abbreviation step :=
  (notify ConnectionProtocol to_hex_string to_compact_string).
Local Abbreviation run_all :=
  (run ConnectionProtocol to_hex_string to_compact_string).
Local Abbreviation end_task c :=
  (CreateTaskWrite c 0x11 (to_compact_string (to_hex_string end_cmd))).

Lemma with_buffer_same (s : State) : with_buffer (_buffer s) s = s.
Proof. now destruct s. Qed.

Lemma slice_app_prefix (b t : bytes) (lo hi : nat) :
  Z.of_nat hi <= len b -> slice (b ++ t) lo hi = slice b lo hi.
Proof.
  unfold len, slice. intros Hhi.
  rewrite skipn_app, firstn_app, length_skipn.
  replace (hi - lo - (List.length b - lo))%nat with 0%nat by lia.
  cbn [firstn]. now rewrite app_nil_r.
Qed.

Lemma uint_le_range (b : bytes) : 0 <= uint_le b < 256 ^ len b.
Proof.
  induction b as [| x b IH].
  - cbn. lia.
  - unfold len in *. cbn [uint_le List.length].
    rewrite Nat2Z.inj_succ, Z.pow_succ_r by lia.
    pose proof (int_of_byte_range x). lia.
Qed.

(** One finalization: everything but the result slot is kept, and the slot
    moves by [slot_step]. *)
Lemma finalize_step (s : State) :
  exists s',
    _finalize_if_ready s = Ok s' /\
    _connection s' = _connection s /\
    _buffer s' = _buffer s /\
    _expected_len s' = _expected_len s /\
    slot_step s s'.
Proof.
  destruct (_result s) as [cr |] eqn:Hres.
  - destruct (_expected_len s) as [n |] eqn:Hexp.
    + destruct (Z.le_gt_cases n (len (_buffer s))) as [Hn | Hn].
      * destruct (Z.le_gt_cases 378 (len (_buffer s))) as [Hbig | Hsmall].
        -- rewrite (finalize_eligible s cr n Hres Hexp Hn Hbig).
           eexists; split; [reflexivity |].
           cbn [with_result _connection _buffer _expected_len].
           repeat (split; [first [reflexivity | assumption] |]).
           right. exists cr.
           cbn [with_result _buffer _result]. now repeat split.
        -- exists s. unfold _finalize_if_ready. rewrite Hres, Hexp.
           destruct (Z.ltb_spec (len (_buffer s)) n); [lia |].
           destruct (Z.geb_spec (len (_buffer s)) (_STEPS_OFFSET + 4))
             as [Hge | _]; [unfold _STEPS_OFFSET in Hge; lia |].
           repeat split; try congruence. now left.
      * exists s. unfold _finalize_if_ready. rewrite Hres, Hexp.
        destruct (Z.ltb_spec (len (_buffer s)) n); [| lia].
        repeat split; try congruence. now left.
    + exists s. unfold _finalize_if_ready. rewrite Hres, Hexp.
      repeat split; try congruence. now left.
  - exists s. rewrite (finalize_without_request s Hres).
    repeat split; try congruence. now left.
Qed.

Lemma set_result_delivered (v : Z) (cr : CancelableResult.t) :
  CancelableResult.delivered (CancelableResult.set_result v cr)
  = match CancelableResult.delivered cr with
    | [] => [v]
    | w :: tl => w :: tl
    end.
Proof.
  unfold CancelableResult.set_result.
  destruct (CancelableResult.delivered cr) eqn:Hd; cbn; congruence.
Qed.

(** A slot that already went through [set_result] with the value of the
    buffer is left alone by finalization. *)
Lemma finalize_after_set (s : State) (cr : CancelableResult.t) :
  _result s
  = Some (CancelableResult.set_result
            (uint_le (slice (_buffer s) 374 378)) cr) ->
  _finalize_if_ready s = Ok s.
Proof.
  intros Hset. unfold _finalize_if_ready. rewrite Hset.
  destruct (_expected_len s) as [n |]; [| reflexivity].
  destruct (len (_buffer s) <? n); [reflexivity |].
  destruct (Z.geb_spec (len (_buffer s)) (_STEPS_OFFSET + 4)) as [Hge | _];
    [| reflexivity].
  change _STEPS_OFFSET with (Z.of_nat 374) in *.
  rewrite unpack_from_u32_le_slice by exact Hge.
  cbn [bind]. rewrite set_result_twice, <- Hset.
  now destruct s.
Qed.

(** What [slot_step] entails. *)

Lemma slot_step_trans_result (s1 s s' : State) :
  _result s1 = _result s -> slot_step s1 s' -> slot_step s s'.
Proof.
  intros Hres [Hsame | (cr & Hcr & Hbig & Hset)].
  - left. congruence.
  - right. exists cr. repeat split; congruence.
Qed.

Lemma slot_step_timeout (s s' : State) (cr : CancelableResult.t) :
  slot_step s s' ->
  _result s = Some cr ->
  exists cr',
    _result s' = Some cr' /\
    CancelableResult.timeout cr' = CancelableResult.timeout cr.
Proof.
  intros [Hsame | (cr0 & Hcr & _ & Hset)] Hres.
  - exists cr. split; congruence.
  - assert (cr0 = cr) as -> by congruence.
    eexists; split; [exact Hset |].
    unfold CancelableResult.set_result.
    now destruct (CancelableResult.delivered cr).
Qed.

Lemma slot_step_none (s s' : State) :
  slot_step s s' -> _result s = None -> _result s' = None.
Proof.
  intros [Hsame | (cr0 & Hcr & _)] Hres; congruence.
Qed.

Lemma slot_step_delivered (s s' : State) :
  slot_step s s' -> deliveries s <> [] -> deliveries s' = deliveries s.
Proof.
  unfold deliveries.
  intros [Hsame | (cr & Hcr & _ & Hset)] Hdel.
  - now rewrite Hsame.
  - rewrite Hset, Hcr in *. rewrite set_result_delivered.
    destruct (CancelableResult.delivered cr); [congruence | reflexivity].
Qed.

Lemma slot_step_from_buffer (s s' : State) (data : bytes) :
  slot_step s s' ->
  _buffer s' = _buffer s ++ data ->
  delivered_from_buffer s -> delivered_from_buffer s'.
Proof.
  unfold delivered_from_buffer, deliveries.
  intros Hstep Hbuf Hinv.
  assert (Hgrow : 378 <= len (_buffer s) ->
                  slice (_buffer s') 374 378 = slice (_buffer s) 374 378).
  { intros Hbig. rewrite Hbuf. apply slice_app_prefix.
    change (Z.of_nat 378) with 378. exact Hbig. }
  destruct Hstep as [Hsame | (cr & Hcr & Hbig' & Hset)].
  - rewrite Hsame. destruct Hinv as [Hnone | [Hbig Hval]]; [now left |].
    right. split.
    + rewrite Hbuf, len_app. pose proof (len_nonneg data). lia.
    + now rewrite Hgrow.
  - rewrite Hset. rewrite Hcr in Hinv. right. split; [exact Hbig' |].
    rewrite set_result_delivered.
    destruct Hinv as [Hnone | [Hbig Hval]].
    + now rewrite Hnone.
    + rewrite Hval. now rewrite Hgrow.
Qed.

(** One control-channel notification. *)
Lemma drsp_step (data : bytes) (s : State) :
  exists s',
    on_drsp_received data s = Ok s' /\
    _connection s' = _connection s /\
    _buffer s' = _buffer s /\
    slot_step s s' /\
    (expected_len_in_range s -> expected_len_in_range s').
Proof.
  destruct (Z.ltb_spec (len data) 5) as [Hshort | Hlen].
  - exists s. unfold on_drsp_received.
    apply Z.ltb_lt in Hshort. rewrite Hshort.
    repeat (split; [first [reflexivity | now left] |]). auto.
  - destruct (at_least_five data Hlen) as (c & k & b2 & b3 & b4 & rest & ->).
    rewrite on_drsp_received_frame.
    destruct (negb (int_of_byte k =? 17)).
    { exists s. repeat (split; [first [reflexivity | now left] |]). auto. }
    cbn zeta.
    set (L := int_of_byte b2 + 256 * int_of_byte b3 + 65536 * int_of_byte b4).
    assert (HL : 0 <= L < 2 ^ 24).
    { pose proof (int_of_byte_range b2). pose proof (int_of_byte_range b3).
      pose proof (int_of_byte_range b4). unfold L. lia. }
    set (s1 := if int_of_byte c =? 0 then with_expected_len (Some L) s else s).
    assert (Hs1 : _connection s1 = _connection s /\
                  _buffer s1 = _buffer s /\
                  _result s1 = _result s /\
                  (expected_len_in_range s -> expected_len_in_range s1)).
    { unfold s1. destruct (int_of_byte c =? 0);
        repeat (split; [reflexivity |]); [| auto].
      intros _ n Hn. cbn in Hn. injection Hn as <-. exact HL. }
    destruct Hs1 as (Hc1 & Hb1 & Hr1 & Hin1).
    destruct (int_of_byte c =? 4).
    + destruct (finalize_step s1) as (s' & Hfin & Hc & Hb & He & Hstep).
      exists s'. repeat (split; [congruence |]). split.
      * now apply (slot_step_trans_result s1).
      * intros Hin n Hn. apply (Hin1 Hin n). congruence.
    + exists s1. repeat (split; [first [reflexivity | assumption] |]).
      split; [left; congruence | assumption].
Qed.

(** One data-channel notification. *)
Lemma convoy_step (data : bytes) (s : State) :
  exists s' sent,
    on_convoy data s = Ok (s', sent) /\
    _connection s' = _connection s /\
    _buffer s' = _buffer s ++ data /\
    _expected_len s' = _expected_len s /\
    slot_step s s' /\
    (sent = [] \/
     exists c n,
       _connection s = Some c /\ data <> [] /\
       _expected_len s = Some n /\ n <= len (_buffer s ++ data) /\
       sent = [end_task c]).
Proof.
  destruct data as [| x data].
  - exists s, []. rewrite app_nil_r.
    repeat (split; [first [reflexivity | now left] |]). now left.
  - set (d := x :: data). assert (Hne : d <> []) by discriminate.
    destruct (_expected_len s) as [n |] eqn:Hexp.
    + destruct (Z.le_gt_cases n (len (_buffer s ++ d))) as [Hge | Hlt].
      * rewrite (on_convoy_reached to_hex_string to_compact_string
                   d s n Hne Hexp Hge).
        set (s1 := with_buffer (_buffer s ++ d) s).
        destruct (finalize_step s1) as (s' & Hfin & Hc & Hb & He & Hstep).
        rewrite Hfin. cbn [bind]. eexists _, _. split; [reflexivity |].
        split; [exact Hc |]. split; [exact Hb |].
        split; [rewrite He; exact Hexp |]. split.
        -- now apply (slot_step_trans_result s1).
        -- destruct (_connection s) as [c |]; [right | now left].
           exists c, n. now repeat split.
      * rewrite (on_convoy_below to_hex_string to_compact_string
                   d s n Hne Hexp) by lia.
        eexists _, _.
        repeat (split; [first [reflexivity | exact Hexp | now left] |]).
        now left.
    + rewrite (on_convoy_unannounced to_hex_string to_compact_string
                 d s Hne Hexp).
      eexists _, _.
      repeat (split; [first [reflexivity | exact Hexp | now left] |]).
      now left.
Qed.

(** One notification of either kind. *)
Lemma notify_step (n : Notification) (s : State) :
  exists s' sent,
    step n s = Ok (s', sent) /\
    _connection s' = _connection s /\
    _buffer s' = _buffer s ++ payload n /\
    slot_step s s' /\
    (expected_len_in_range s -> expected_len_in_range s') /\
    (sent = [] \/
     exists c,
       _connection s = Some c /\ nonempty (payload n) = true /\
       sent = [end_task c]).
Proof.
  destruct n as [data | data]; cbn [notify payload].
  - destruct (drsp_step data s) as (s' & Hrun & Hc & Hb & Hstep & Hin).
    exists s', []. rewrite Hrun, app_nil_r. cbn [bind].
    repeat (split; [first [reflexivity | assumption] |]). now left.
  - destruct (convoy_step data s)
      as (s' & sent & Hrun & Hc & Hb & He & Hstep & Hsent).
    exists s', sent.
    repeat (split; [first [reflexivity | assumption] |]). split.
    + unfold expected_len_in_range. now rewrite He.
    + destruct Hsent as [-> | (c & n & Hconn & Hne & _ & _ & ->)];
        [now left | right].
      exists c. repeat split; [assumption |].
      destruct data; [congruence | reflexivity].
Qed.

(** What every sequence of notifications keeps. *)
Lemma run_facts (ns : list Notification) :
  forall s : State,
  exists s' sent,
    run_all ns s = Ok (s', sent) /\
    _connection s' = _connection s /\
    _buffer s' = _buffer s ++ concat (map payload ns) /\
    (delivered_from_buffer s -> delivered_from_buffer s') /\
    (expected_len_in_range s -> expected_len_in_range s') /\
    (forall cr,
        _result s = Some cr ->
        exists cr',
          _result s' = Some cr' /\
          CancelableResult.timeout cr' = CancelableResult.timeout cr) /\
    (deliveries s <> [] -> deliveries s' = deliveries s) /\
    Forall (fun e => exists c, _connection s = Some c /\ e = end_task c)
           sent /\
    (List.length sent
     <= List.length (filter nonempty (map payload ns)))%nat.
Proof.
  induction ns as [| n ns IH]; intros s.
  - exists s, []. cbn. rewrite app_nil_r.
    repeat (split; [first [reflexivity | now auto] |]).
    split; [intros cr Hcr; now exists cr |].
    split; [reflexivity |]. split; [constructor | lia].
  - destruct (notify_step n s)
      as (s1 & sent1 & Hrun1 & Hc1 & Hb1 & Hstep1 & Hin1 & Hsent1).
    destruct (IH s1)
      as (s2 & sent2 & Hrun2 & Hc2 & Hb2 & Hinv2 & Hin2 & Hto2 & Hdel2
          & Hall2 & Hlen2).
    exists s2, (sent1 ++ sent2).
    split; [exact (run_cons to_hex_string to_compact_string
                     n ns s s1 s2 sent1 sent2 Hrun1 Hrun2) |].
    split; [congruence |].
    split; [cbn [map concat]; rewrite Hb2, Hb1; now rewrite <- app_assoc |].
    split; [intros Hinv; apply Hinv2;
            now apply (slot_step_from_buffer s s1 (payload n)) |].
    split; [now auto |].
    split.
    { intros cr Hcr.
      destruct (slot_step_timeout s s1 cr Hstep1 Hcr) as (cr1 & Hr1 & Ht1).
      destruct (Hto2 cr1 Hr1) as (cr2 & Hr2 & Ht2).
      exists cr2. split; congruence. }
    split.
    { intros Hdel.
      pose proof (slot_step_delivered s s1 Hstep1 Hdel) as Hd1.
      rewrite Hdel2; congruence. }
    split.
    { apply Forall_app. split.
      - destruct Hsent1 as [-> | (c & Hconn & _ & ->)]; [constructor |].
        constructor; [now exists c | constructor].
      - rewrite <- Hc1. exact Hall2. }
    rewrite length_app. cbn [map filter].
    destruct Hsent1 as [-> | (c & _ & Hne & ->)].
    + cbn [List.length]. destruct (nonempty (payload n)); cbn; lia.
    + rewrite Hne. cbn. lia.
Qed.

(** X1: no sequence of control-channel and data-channel notifications makes
    a handler raise, from any class state: the length guards keep the byte
    indexing of [on_drsp_received] and the [struct.unpack_from] of
    [_finalize_if_ready] in range. *)
Theorem handlers_never_raise (ns : list Notification) (s : State) :
  exists s' sent, run_all ns s = Ok (s', sent).
Proof.
  destruct (run_facts ns s) as (s' & sent & Hrun & _).
  now exists s', sent.
Qed.

(** X2: the buffer is append-only.  After any sequence of notifications it
    is the buffer before followed by the data-channel payloads in arrival
    order; control-channel notifications add nothing, and no handler rebinds
    the connection. *)
Theorem buffer_append_only (ns : list Notification) (s : State) :
  exists s' sent,
    run_all ns s = Ok (s', sent) /\
    _buffer s' = _buffer s ++ concat (map payload ns) /\
    _connection s' = _connection s.
Proof.
  destruct (run_facts ns s) as (s' & sent & Hrun & Hc & Hb & _).
  now exists s', sent.
Qed.

(** X3: the caller is never handed a wrong value.  From a state in which
    nothing has been delivered, after any sequence of notifications either
    nothing has been delivered still, or the buffer holds at least 378 bytes
    and the one value delivered is the little-endian integer at bytes
    374..377 of the buffer. *)
Theorem delivered_value_always_from_offset
    (ns : list Notification) (s : State) :
  deliveries s = [] ->
  exists s' sent,
    run_all ns s = Ok (s', sent) /\
    (deliveries s' = [] \/
     (378 <= len (_buffer s') /\
      deliveries s' = [uint_le (slice (_buffer s') 374 378)])).
Proof.
  intros Hnone.
  destruct (run_facts ns s) as (s' & sent & Hrun & _ & _ & Hinv & _).
  exists s', sent. split; [exact Hrun |].
  apply Hinv. now left.
Qed.

(** X4: the expected length never leaves 24 bits.  If it is unset or below
    2^24 before, then after any sequence of notifications it is unset or
    within [0, 2^24). *)
Theorem expected_len_stays_in_range (ns : list Notification) (s : State) :
  (forall n, _expected_len s = Some n -> 0 <= n < 2 ^ 24) ->
  exists s' sent,
    run_all ns s = Ok (s', sent) /\
    (forall n, _expected_len s' = Some n -> 0 <= n < 2 ^ 24).
Proof.
  intros Hin.
  destruct (run_facts ns s) as (s' & sent & Hrun & _ & _ & _ & Hin' & _).
  exists s', sent. split; [exact Hrun | exact (Hin' Hin)].
Qed.

(** X5: a delivered value is an unsigned 32-bit integer.  From a state in
    which nothing has been delivered, every value delivered in the course of
    any sequence of notifications lies in [0, 2^32). *)
Theorem delivered_value_in_range (ns : list Notification) (s : State) :
  deliveries s = [] ->
  exists s' sent,
    run_all ns s = Ok (s', sent) /\
    Forall (fun v => 0 <= v < 2 ^ 32) (deliveries s').
Proof.
  intros Hnone.
  destruct (run_facts ns s) as (s' & sent & Hrun & _ & _ & Hinv & _).
  exists s', sent. split; [exact Hrun |].
  destruct (Hinv (or_introl Hnone)) as [-> | [_ ->]]; [constructor |].
  constructor; [| constructor].
  pose proof (uint_le_range (slice (_buffer s') 374 378)) as Hr.
  assert (Hlen : len (slice (_buffer s') 374 378) <= 4).
  { unfold len, slice.
    pose proof (firstn_le_length (378 - 374) (skipn 374 (_buffer s'))).
    lia. }
  assert (256 ^ len (slice (_buffer s') 374 378) <= 256 ^ 4)
    by (apply Z.pow_le_mono_r; [lia | exact Hlen]).
  change (2 ^ 32) with (256 ^ 4). lia.
Qed.

(** X6: the handlers send nothing but end frames.  Everything a sequence of
    notifications hands to the transport is the end frame [04 11 00 00 00]
    as a category-0x11 task on the connection bound before; there is at most
    one per non-empty data-channel payload, none for a control-channel
    notification, and none at all when no connection is bound. *)
Theorem sent_only_end_frames (ns : list Notification) (s : State) :
  exists s' sent,
    run_all ns s = Ok (s', sent) /\
    Forall (fun e =>
              exists c,
                _connection s = Some c /\
                e = CreateTaskWrite c 0x11
                      (to_compact_string
                         (to_hex_string [x04; x11; x00; x00; x00])))
           sent /\
    (List.length sent
     <= List.length (filter nonempty (map payload ns)))%nat.
Proof.
  destruct (run_facts ns s)
    as (s' & sent & Hrun & _ & _ & _ & _ & _ & _ & Hall & Hlen).
  now exists s', sent.
Qed.

(** X7: a session keeps what [request] gave it.  After [request], whatever
    notifications arrive, the connection is still the one passed in and the
    result slot still holds a channel with the timeout it was armed with, so
    that [request] has a channel to await. *)
Theorem session_keeps_channel
    (connection : ConnectionProtocol) (timeout : option Q) (s0 : State)
    (ns : list Notification) :
  exists s' sent cr,
    run_all ns
      (fst (request ConnectionProtocol to_hex_string to_compact_string
              connection timeout s0))
    = Ok (s', sent) /\
    _connection s' = Some connection /\
    _result s' = Some cr /\
    CancelableResult.timeout cr
    = match timeout with Some t => t | None => 60%Q end /\
    request_returns s' = Some (CancelableResult.get_result cr).
Proof.
  set (s := fst (request _ _ _ connection timeout s0)).
  destruct (run_facts ns s)
    as (s' & sent & Hrun & Hc & _ & _ & _ & Hto & _).
  destruct (Hto _ eq_refl) as (cr & Hres & Htime).
  exists s', sent, cr. repeat split; try assumption.
  unfold request_returns. now rewrite Hres.
Qed.

(** C9, amended: whatever the class state was, [request] leaves a fresh
    session (empty buffer, no expected length) bound to the connection, with
    a result channel armed with the caller's timeout, or 60 when omitted,
    and nothing delivered; it awaits exactly one write, the five bytes
    [00 11 00 00 00] with category 0x11.  If that write returns, then
    whatever notifications arrive meanwhile, the call ends as [get_result]
    of the channel armed by this call does: its value returned, its timeout
    raised.  If the write raises, the call raises that exception and
    [get_result] is not awaited. *)
Theorem request_spec
    (connection : ConnectionProtocol) (timeout : option Q) (s0 : State) :
  let r := request ConnectionProtocol to_hex_string to_compact_string
             connection timeout s0 in
  _connection (fst r) = Some connection /\
  _buffer (fst r) = [] /\
  _expected_len (fst r) = None /\
  _result (fst r)
  = Some (CancelableResult.make
            (match timeout with Some t => t | None => 60%Q end) []) /\
  awaited (snd r)
  = AwaitWrite connection 0x11
      (to_compact_string (to_hex_string [x00; x11; x00; x00; x00])) /\
  len [x00; x11; x00; x00; x00] = 5 /\
  is_start_frame [x00; x11; x00; x00; x00] = true /\
  announced_length [x00; x11; x00; x00; x00] = 0 /\
  (forall ns : list Notification,
      exists s' sent cr,
        run_all ns (fst r) = Ok (s', sent) /\
        _result s' = Some cr /\
        CancelableResult.timeout cr
        = match timeout with Some t => t | None => 60%Q end /\
        resume (snd r) WriteReturned s'
        = outcome_of (CancelableResult.get_result cr)) /\
  (forall (e : TransportError) (settled : State),
      resume (snd r) (WriteRaised e) settled = RaisesFromWrite e).
Proof.
  cbn zeta. cbn [request fst snd awaited resume].
  repeat (split; [reflexivity |]).
  split; [| reflexivity].
  intros ns.
  set (s := mkLifelogIO (Some connection) _ [] None).
  destruct (run_facts ns s)
    as (s' & sent & Hrun & _ & _ & _ & _ & Hto & _).
  destruct (Hto _ eq_refl) as (cr & Hres & Htime).
  exists s', sent, cr. repeat (split; [assumption |]).
  unfold request_returns. now rewrite Hres.
Qed.

(** ** Orderings and edge cases *)

Lemma run_app (ns1 ns2 : list Notification) :
  forall (s s1 s2 : State) (sent1 sent2 : list (Effect ConnectionProtocol)),
    run_all ns1 s = Ok (s1, sent1) ->
    run_all ns2 s1 = Ok (s2, sent2) ->
    run_all (ns1 ++ ns2) s = Ok (s2, sent1 ++ sent2).
Proof.
  induction ns1 as [| n ns1 IH]; intros s s1 s2 sent1 sent2 H1 H2.
  - cbn in H1. injection H1 as <- <-. exact H2.
  - cbn [run] in H1.
    destruct (step n s) as [[sa senta] | e] eqn:Hn; [| discriminate H1].
    cbn [bind fst snd] in H1.
    destruct (run_all ns1 sa) as [[sb sentb] | e] eqn:Hr; [| discriminate H1].
    cbn [bind fst snd] in H1. injection H1 as <- <-.
    rewrite <- app_comm_cons, <- app_assoc.
    apply (run_cons to_hex_string to_compact_string _ _ s sa s2); [exact Hn |].
    now apply (IH sa sb s2).
Qed.

Lemma payload_of_convoys (chunks : list bytes) :
  map payload (map Convoy chunks) = chunks.
Proof.
  rewrite map_map. cbn [payload]. apply map_id.
Qed.

Lemma start_frame_sets (frame : bytes) (s : State) :
  is_start_frame frame = true ->
  on_drsp_received frame s
  = Ok (with_expected_len (Some (announced_length frame)) s).
Proof.
  intros Hstart.
  destruct frame as [| c [| k [| b2 [| b3 [| b4 rest]]]]];
    try discriminate Hstart.
  cbn [is_start_frame] in Hstart.
  apply andb_true_iff in Hstart as [Hc Hk]. apply Z.eqb_eq in Hc.
  rewrite on_drsp_received_frame, announced_length_frame, Hc, Hk.
  reflexivity.
Qed.

Lemma end_frame_finalizes (frame : bytes) (s : State) :
  is_end_frame frame = true ->
  on_drsp_received frame s = _finalize_if_ready s.
Proof.
  intros Hend.
  destruct frame as [| c [| k [| b2 [| b3 [| b4 rest]]]]];
    try discriminate Hend.
  cbn [is_end_frame] in Hend.
  apply andb_true_iff in Hend as [Hc Hk]. apply Z.eqb_eq in Hc.
  rewrite on_drsp_received_frame, Hc, Hk. reflexivity.
Qed.

Lemma finalize_below_offset (s : State) :
  len (_buffer s) < 378 -> _finalize_if_ready s = Ok s.
Proof.
  intros Hshort. unfold _finalize_if_ready.
  destruct (_result s); [| reflexivity].
  destruct (_expected_len s) as [n |]; [| reflexivity].
  destruct (len (_buffer s) <? n); [reflexivity |].
  destruct (Z.geb_spec (len (_buffer s)) (_STEPS_OFFSET + 4)) as [Hge | _];
    [unfold _STEPS_OFFSET in Hge; lia | reflexivity].
Qed.

Lemma run_unannounced (chunks : list bytes) :
  forall s : State,
    _expected_len s = None ->
    run_all (map Convoy chunks) s
    = Ok (with_buffer (_buffer s ++ concat chunks) s, []).
Proof.
  induction chunks as [| chunk rest IH]; intros s Hexp.
  - cbn. now rewrite app_nil_r, with_buffer_same.
  - cbn [map concat].
    destruct chunk as [| x chunk].
    + rewrite (run_cons to_hex_string to_compact_string
                 (Convoy []) (map Convoy rest) s s _ [] []
                 eq_refl (IH s Hexp)).
      reflexivity.
    + set (d := x :: chunk) in *.
      set (s1 := with_buffer (_buffer s ++ d) s).
      assert (H1 : step (Convoy d) s = Ok (s1, [])).
      { apply on_convoy_unannounced; [discriminate | exact Hexp]. }
      rewrite (run_cons to_hex_string to_compact_string
                 (Convoy d) (map Convoy rest) s s1 _ [] [] H1 (IH s1 Hexp)).
      cbn [s1 with_buffer _buffer app].
      now rewrite <- app_assoc.
Qed.

(** X8: data that arrives before any start frame is only buffered.  While
    the expected length is unset, a run of data-channel notifications of any
    size leaves the buffer extended by the payloads in order and does
    nothing else: no end frame is sent, the expected length stays unset, and
    the result slot and the connection are untouched. *)
Theorem unannounced_data_only_buffered (chunks : list bytes) (s : State) :
  _expected_len s = None ->
  exists s',
    run_all (map Convoy chunks) s = Ok (s', []) /\
    _buffer s' = _buffer s ++ concat chunks /\
    _expected_len s' = None /\
    _result s' = _result s /\
    _connection s' = _connection s.
Proof.
  intros Hexp. eexists. split; [exact (run_unannounced chunks s Hexp) |].
  cbn. now repeat split.
Qed.

(** X9: when the whole payload arrives before the start frame, the start
    frame alone completes nothing: it sets the expected length and returns,
    with nothing delivered although the buffer is already long enough.  The
    end frame of the device then delivers the value at bytes 374..377, and
    on this path no end frame is sent back. *)
Theorem data_before_start_needs_end_frame
    (b : bytes) (chunks : list bytes) (frame endf : bytes)
    (s : State) (cr : CancelableResult.t) :
  378 <= len b ->
  concat chunks = b ->
  is_start_frame frame = true ->
  announced_length frame <= len b ->
  is_end_frame endf = true ->
  _buffer s = [] ->
  _expected_len s = None ->
  _result s = Some cr ->
  CancelableResult.delivered cr = [] ->
  exists s1 s2,
    run_all (map Convoy chunks ++ [Drsp frame]) s = Ok (s1, []) /\
    _expected_len s1 = Some (announced_length frame) /\
    deliveries s1 = [] /\
    run_all [Drsp endf] s1 = Ok (s2, []) /\
    deliveries s2 = [uint_le (slice b 374 378)].
Proof.
  intros Hbig Hcat Hstart Hann Hend Hbuf Hexp Hres Hpending.
  pose proof (run_unannounced chunks s Hexp) as Hdata.
  rewrite Hbuf, Hcat in Hdata. cbn [app] in Hdata.
  set (sa := with_buffer b s) in *.
  set (s1 := with_expected_len (Some (announced_length frame)) sa).
  assert (Hframe : run_all [Drsp frame] sa = Ok (s1, [])).
  { cbn [run notify]. rewrite (start_frame_sets frame sa Hstart).
    reflexivity. }
  pose proof (finalize_eligible s1 cr (announced_length frame)
                Hres eq_refl Hann Hbig) as Hfin.
  cbn [s1 sa with_expected_len with_buffer _buffer] in Hfin.
  eexists s1, _. split; [| split; [reflexivity | split; [| split]]].
  - exact (run_app _ _ s sa s1 [] [] Hdata Hframe).
  - unfold deliveries. cbn. now rewrite Hres.
  - cbn [run notify]. rewrite (end_frame_finalizes endf s1 Hend), Hfin.
    reflexivity.
  - unfold deliveries. cbn. rewrite set_result_delivered.
    now rewrite Hpending.
Qed.

Lemma run_past_watermark (chunks : list bytes) :
  forall (s : State) (c : ConnectionProtocol) (n : Z),
    _connection s = Some c ->
    _expected_len s = Some n ->
    n <= len (_buffer s) ->
    exists s',
      run_all (map Convoy chunks) s
      = Ok (s', map (fun _ => end_task c) (filter nonempty chunks)).
Proof.
  induction chunks as [| chunk rest IH]; intros s c n Hconn Hexp Hn.
  - now exists s.
  - cbn [map filter].
    destruct chunk as [| x chunk].
    + destruct (IH s c n Hconn Hexp Hn) as (s' & Hrest).
      exists s'. cbn [nonempty].
      exact (run_cons to_hex_string to_compact_string
               (Convoy []) (map Convoy rest) s s s' [] _ eq_refl Hrest).
    + set (d := x :: chunk) in *.
      assert (Hne : d <> []) by discriminate.
      assert (Hge : n <= len (_buffer s ++ d))
        by (rewrite len_app; pose proof (len_nonneg d); lia).
      pose proof (on_convoy_reached to_hex_string to_compact_string
                    d s n Hne Hexp Hge) as Hstep.
      destruct (finalize_step (with_buffer (_buffer s ++ d) s))
        as (s1 & Hfin & Hc1 & Hb1 & He1 & _).
      rewrite Hfin, Hconn in Hstep. cbn [bind] in Hstep.
      destruct (IH s1 c n) as (s' & Hrest).
      { rewrite Hc1. exact Hconn. }
      { rewrite He1. exact Hexp. }
      { rewrite Hb1. exact Hge. }
      exists s'. cbn [nonempty map].
      exact (run_cons to_hex_string to_compact_string
               (Convoy d) (map Convoy rest) s s1 s' [_] _ Hstep Hrest).
Qed.

(** X10: the end frame is not sent once only.  Once the buffer has reached
    the expected length, every further non-empty data-channel payload makes
    the handler schedule the end frame again: a run of such payloads sends
    exactly one end frame per non-empty payload. *)
Theorem late_chunks_resend_end_frame
    (chunks : list bytes) (s : State) (c : ConnectionProtocol) (n : Z) :
  _connection s = Some c ->
  _expected_len s = Some n ->
  n <= len (_buffer s) ->
  exists s',
    run_all (map Convoy chunks) s
    = Ok (s',
          map (fun _ =>
                 CreateTaskWrite c 0x11
                   (to_compact_string
                      (to_hex_string [x04; x11; x00; x00; x00])))
              (filter nonempty chunks)).
Proof.
  exact (run_past_watermark chunks s c n).
Qed.

(** X11: a payload that reaches the expected length but not 378 bytes is
    acknowledged all the same: the handler appends it, schedules the end
    frame, and leaves the result slot as it was. *)
Theorem short_payload_still_acknowledged
    (data : bytes) (s : State) (c : ConnectionProtocol) (n : Z) :
  data <> [] ->
  _connection s = Some c ->
  _expected_len s = Some n ->
  n <= len (_buffer s ++ data) ->
  len (_buffer s ++ data) < 378 ->
  on_convoy data s
  = Ok (with_buffer (_buffer s ++ data) s,
        [CreateTaskWrite c 0x11
           (to_compact_string (to_hex_string [x04; x11; x00; x00; x00]))]).
Proof.
  intros Hne Hconn Hexp Hge Hshort.
  rewrite (on_convoy_reached to_hex_string to_compact_string
             data s n Hne Hexp Hge).
  rewrite finalize_below_offset by exact Hshort.
  cbn [bind]. now rewrite Hconn.
Qed.

(** X12: of the category-0x11 control frames only commands 0x00 and 0x04
    have an effect: a frame of at least five bytes with any other command
    byte leaves the class state as it was. *)
Theorem unknown_command_ignored (data : bytes) (s : State) (command : Z) :
  5 <= len data ->
  getitem data 0 = Ok command ->
  command <> 0x00 ->
  command <> 0x04 ->
  on_drsp_received data s = Ok s.
Proof.
  intros Hlen Hcmd H0 H4.
  destruct (at_least_five data Hlen) as (c & k & b2 & b3 & b4 & rest & ->).
  rewrite on_drsp_received_frame.
  cbn in Hcmd. injection Hcmd as Hc.
  apply Z.eqb_neq in H0, H4. rewrite Hc, H0, H4.
  now destruct (negb (int_of_byte k =? 17)).
Qed.

(** X13: a control-channel notification is read through its first five
    bytes only: whatever follows them changes nothing. *)
Theorem trailing_bytes_ignored (data : bytes) (s : State) :
  on_drsp_received (firstn 5 data) s = on_drsp_received data s.
Proof.
  destruct data as [| c [| k [| b2 [| b3 [| b4 rest]]]]]; try reflexivity.
  cbn [firstn]. now rewrite !on_drsp_received_frame.
Qed.

(** Once the payloads have brought the buffer to the expected length and
    to 378 bytes, something has been delivered. *)
Lemma run_chunks_delivers (chunks : list bytes) :
  forall (s : State) (n : Z),
    _expected_len s = Some n ->
    _result s <> None ->
    n <= len (_buffer s ++ concat chunks) ->
    378 <= len (_buffer s ++ concat chunks) ->
    concat chunks <> [] \/ deliveries s <> [] ->
    exists s' sent,
      run_all (map Convoy chunks) s = Ok (s', sent) /\
      deliveries s' <> [].
Proof.
  induction chunks as [| chunk rest IH];
    intros s n Hexp Hres Hn Hbig Hsome.
  - exists s, []. split; [reflexivity |].
    destruct Hsome as [Hne | Hdel]; [now cbn in Hne | exact Hdel].
  - cbn [concat map] in *.
    destruct (convoy_step chunk s)
      as (s1 & sent1 & Hrun1 & _ & Hb1 & He1 & Hstep1 & _).
    assert (Hres1 : _result s1 <> None).
    { destruct (_result s) as [cr |] eqn:Hcr; [| congruence].
      destruct (slot_step_timeout s s1 cr Hstep1 Hcr) as (cr1 & -> & _).
      discriminate. }
    assert (Hnext : concat rest <> [] \/ deliveries s1 <> []).
    { destruct (list_eq_dec Byte.byte_eq_dec (concat rest) []) as [Hnil | Hne];
        [right | now left].
      destruct (list_eq_dec Z.eq_dec (deliveries s) []) as [Hd | Hd];
        [| now rewrite (slot_step_delivered s s1 Hstep1 Hd)].
      rewrite Hnil, app_nil_r in *.
      destruct Hsome as [Hne | Hdel]; [| congruence].
      destruct (_result s) as [cr |] eqn:Hcr; [| congruence].
      rewrite (on_convoy_reached to_hex_string to_compact_string
                 chunk s n Hne Hexp Hn) in Hrun1.
      rewrite (finalize_eligible (with_buffer (_buffer s ++ chunk) s) cr n)
        in Hrun1 by (try assumption; reflexivity).
      cbn [bind] in Hrun1. injection Hrun1 as <- _.
      unfold deliveries in *. cbn. rewrite Hcr in Hd.
      rewrite set_result_delivered, Hd. discriminate. }
    destruct (IH s1 n) as (s' & sent & Hrest & Hdel); try assumption.
    + now rewrite He1.
    + rewrite Hb1, <- app_assoc. exact Hn.
    + rewrite Hb1, <- app_assoc. exact Hbig.
    + exists s', (sent1 ++ sent). split; [| exact Hdel].
      exact (run_cons to_hex_string to_compact_string
               (Convoy chunk) (map Convoy rest) s s1 s' sent1 sent
               Hrun1 Hrest).
Qed.

(** X14: reassembly does not depend on the announced length being exact.
    On a session with a pending channel and the expected length set, data
    payloads cut in any way, empty ones included, that bring the buffer to
    at least the expected length and at least 378 bytes deliver the
    little-endian integer at bytes 374..377 of the whole buffer, also when
    the buffer held data before, when the expected length is below 378, or
    when more bytes arrive than were announced. *)
Theorem reassembly_general
    (chunks : list bytes) (s : State) (cr : CancelableResult.t) (n : Z) :
  _result s = Some cr ->
  CancelableResult.delivered cr = [] ->
  _expected_len s = Some n ->
  n <= len (_buffer s ++ concat chunks) ->
  378 <= len (_buffer s ++ concat chunks) ->
  concat chunks <> [] ->
  exists s' sent,
    run_all (map Convoy chunks) s = Ok (s', sent) /\
    deliveries s' = [uint_le (slice (_buffer s ++ concat chunks) 374 378)].
Proof.
  intros Hres Hpending Hexp Hn Hbig Hne.
  destruct (run_chunks_delivers chunks s n) as (s' & sent & Hrun & Hdel);
    try assumption; [congruence | now left |].
  destruct (run_facts (map Convoy chunks) s)
    as (s2 & sent2 & Hrun2 & _ & Hbuf & Hinv & _).
  rewrite Hrun in Hrun2. injection Hrun2 as <- <-.
  rewrite payload_of_convoys in Hbuf.
  exists s', sent. split; [exact Hrun |].
  destruct Hinv as [Hnone | [_ Hval]].
  - left. unfold deliveries. now rewrite Hres.
  - congruence.
  - now rewrite <- Hbuf.
Qed.

(** X15: a repeated end frame is harmless.  Handling an end frame of the
    device a second time, right after the first, changes nothing: same
    state, nothing more delivered. *)
Theorem end_frame_twice (endf : bytes) (s : State) :
  is_end_frame endf = true ->
  exists s1,
    on_drsp_received endf s = Ok s1 /\
    on_drsp_received endf s1 = Ok s1.
Proof.
  intros Hend. rewrite (end_frame_finalizes endf s Hend).
  destruct (finalize_step s) as (s1 & Hfin & Hc & Hb & He & Hstep).
  exists s1. split; [exact Hfin |].
  rewrite (end_frame_finalizes endf s1 Hend).
  destruct Hstep as [Hsame | (cr & Hcr & Hbig & Hset)].
  - assert (s1 = s) as ->; [| exact Hfin].
    clear Hfin. destruct s1, s. cbn in Hc, Hb, He, Hsame. congruence.
  - exact (finalize_after_set s1 cr Hset).
Qed.

End Behaviour.

(** ** Closed instances of the sequence properties *)

Lemma delivered_value_always_from_offset_witness :
  exists s' sent,
    run unit example_hex_string example_compact_string
      (Drsp start_frame_400 :: map Convoy four_chunks) fresh_session
    = Ok (s', sent) /\
    (deliveries s' = [] \/
     (378 <= len (_buffer s') /\
      deliveries s' = [uint_le (slice (_buffer s') 374 378)])).
Proof.
  apply (delivered_value_always_from_offset
           example_hex_string example_compact_string).
  reflexivity.
Defined.

Lemma expected_len_stays_in_range_witness :
  exists s' sent,
    run unit example_hex_string example_compact_string
      [Drsp start_frame_10; Convoy short_payload; Drsp end_frame] session_400
    = Ok (s', sent) /\
    (forall n, _expected_len s' = Some n -> 0 <= n < 2 ^ 24).
Proof.
  apply (expected_len_stays_in_range
           example_hex_string example_compact_string).
  intros n Hn. injection Hn as <-. lia.
Defined.

Lemma delivered_value_in_range_witness :
  exists s' sent,
    run unit example_hex_string example_compact_string
      (Drsp start_frame_400 :: map Convoy uneven_chunks) fresh_session
    = Ok (s', sent) /\
    Forall (fun v => 0 <= v < 2 ^ 32) (deliveries s').
Proof.
  apply (delivered_value_in_range example_hex_string example_compact_string).
  reflexivity.
Defined.

Lemma unannounced_data_only_buffered_witness :
  exists s',
    run unit example_hex_string example_compact_string
      (map Convoy four_chunks) pending_unannounced
    = Ok (s', []) /\
    _buffer s' = _buffer pending_unannounced ++ concat four_chunks /\
    _expected_len s' = None /\
    _result s' = _result pending_unannounced /\
    _connection s' = _connection pending_unannounced.
Proof.
  apply (unannounced_data_only_buffered
           example_hex_string example_compact_string).
  reflexivity.
Defined.

Lemma data_before_start_needs_end_frame_witness :
  exists s1 s2,
    run unit example_hex_string example_compact_string
      (map Convoy four_chunks ++ [Drsp start_frame_400]) pending_unannounced
    = Ok (s1, []) /\
    _expected_len s1 = Some (announced_length start_frame_400) /\
    deliveries s1 = [] /\
    run unit example_hex_string example_compact_string [Drsp end_frame] s1
    = Ok (s2, []) /\
    deliveries s2 = [uint_le (slice payload_with_steps 374 378)].
Proof.
  apply (data_before_start_needs_end_frame
           example_hex_string example_compact_string
           payload_with_steps four_chunks start_frame_400 end_frame
           pending_unannounced (CancelableResult.create 60)).
  - by_evaluation.
  - by_evaluation.
  - by_evaluation.
  - by_evaluation.
  - by_evaluation.
  - by_evaluation.
  - by_evaluation.
  - by_evaluation.
  - by_evaluation.
Defined.

Lemma late_chunks_resend_end_frame_witness :
  exists s',
    run unit example_hex_string example_compact_string
      (map Convoy [[x01]; []; [x02; x03]]) ready_400
    = Ok (s',
          map (fun _ =>
                 CreateTaskWrite tt 0x11
                   (example_compact_string
                      (example_hex_string [x04; x11; x00; x00; x00])))
              (filter nonempty [[x01]; []; [x02; x03]])).
Proof.
  apply (late_chunks_resend_end_frame
           example_hex_string example_compact_string
           [[x01]; []; [x02; x03]] ready_400 tt 400).
  - by_evaluation.
  - by_evaluation.
  - by_evaluation.
Defined.

Lemma short_payload_still_acknowledged_witness :
  on_convoy_received unit example_hex_string example_compact_string
    short_payload announced_10
  = Ok (with_buffer (_buffer announced_10 ++ short_payload) announced_10,
        [CreateTaskWrite tt 0x11
           (example_compact_string
              (example_hex_string [x04; x11; x00; x00; x00]))]).
Proof.
  apply (short_payload_still_acknowledged
           example_hex_string example_compact_string
           short_payload announced_10 tt 10).
  - discriminate.
  - by_evaluation.
  - by_evaluation.
  - by_evaluation.
  - by_evaluation.
Defined.

Lemma unknown_command_ignored_witness :
  on_drsp_received [x01; x11; x90; x01; x00] ready_400 = Ok ready_400.
Proof.
  apply (unknown_command_ignored _ _ 0x01).
  - by_evaluation.
  - by_evaluation.
  - by_evaluation.
  - by_evaluation.
Defined.

Lemma reassembly_general_witness :
  exists s' sent,
    run unit example_hex_string example_compact_string
      (map Convoy ([] :: uneven_chunks ++ [[x07]])) announced_10
    = Ok (s', sent) /\
    deliveries s'
    = [uint_le (slice (_buffer announced_10
                       ++ concat ([] :: uneven_chunks ++ [[x07]]))
                  374 378)].
Proof.
  apply (reassembly_general example_hex_string example_compact_string
           ([] :: uneven_chunks ++ [[x07]]) announced_10
           (CancelableResult.create 60) 10).
  - by_evaluation.
  - by_evaluation.
  - by_evaluation.
  - by_evaluation.
  - by_evaluation.
  - by_evaluation.
Defined.

Lemma end_frame_twice_witness :
  exists s1,
    on_drsp_received end_frame ready_400 = Ok s1 /\
    on_drsp_received end_frame s1 = Ok s1.
Proof.
  apply end_frame_twice. by_evaluation.
Defined.

(** The reading of the last instances, by evaluation: the under-announced
    transfer delivers 100 and sends an end frame at each of its four
    non-empty payloads. *)
Example under_announced_transfer :
  bind (run unit example_hex_string example_compact_string
          (map Convoy ([] :: uneven_chunks ++ [[x07]])) announced_10)
       (fun r => Ok (deliveries (fst r), List.length (snd r)))
  = Ok ([100], 4%nat).
Proof. vm_compute. reflexivity. Qed.
